(** * PhoneDash: the pricing engine and the inventory service

    A shallow embedding of [utils.py], [models.py], [database.py] and
    [services.py], and the properties of the specification proved (or refuted)
    on it.

    Conventions.
    - Python [float] is IEEE binary64: Rocq's primitive floats.  The built-in
      [round(x, 2)] is modelled by [py_round2] below.
    - Python [int] is [Z]; [str] is [string]; [list] is [list]; a [dict] used
      as a map ([manual_overrides], [platform_prices], [CONDITION_MAPPERS]) is
      a [gmap]; a [dict] used as a record (a phone, a log entry) is a [Record]
      whose fields are the keys the code reads and writes.
    - The two module-level lists [db] and [action_log_db] and the two JSON
      files form the [Store]; the services are state transformers over it that
      may raise (pydantic's [ValidationError]).
    - The analytics and the reading of the log ([get_dashboard_analytics],
      [get_action_logs]), the HTTP routes of [main.py] and the token check of
      [security.py] are not part of the embedding. *)

From Stdlib Require Import ZArith Ascii String PrimFloat SpecFloat FloatOps FloatAxioms.
From stdpp Require Import gmap strings list fin_maps pretty relations sorting.

#[local] Set Warnings "-inexact-float".
#[local] Open Scope Z_scope.

(** ** Python built-ins used by the code *)

(** [a / d] rounded to the nearest integer, ties to the even one
    ([0 <= a], [0 < d]). *)
Definition round_half_even_div (a d : Z) : Z :=
  let q := a / d in
  let r := a mod d in
  match 2 * r ?= d with
  | Lt => q
  | Gt => q + 1
  | Eq => if Z.even q then q else q + 1
  end.

(** [round(x, 2)] on a float, as CPython computes it: the exact binary value
    of [x] is rounded to two decimals (ties to even) and the decimal [n/100]
    obtained is converted back to the nearest float.  Zeros, infinities and
    NaN round to themselves, and the sign is kept ([round(-0.001, 2)] is
    [-0.0]). *)
Definition py_round2 (x : float) : float :=
  match Prim2SF x with
  | S754_finite s m e =>
      let n := if 0 <=? e then Zpos m * 2 ^ e * 100
               else round_half_even_div (Zpos m * 100) (2 ^ (- e)) in
      match n with
      | Zpos np =>
          SF2Prim (SFdiv prec emax (S754_finite s np 0) (S754_finite false 100 0))
      | _ => if s then (-0)%float else 0%float
      end
  | _ => x
  end.

(** Values CPython prints for [round(x, 2)]: 2.675 is stored below the tie
    and rounds down, 0.125 and 0.375 are exact ties and round to the even
    digit, and a negative value that rounds to zero keeps its sign. *)
Example py_round2_values :
  py_round2 2.675 = 2.67%float /\ py_round2 0.125 = 0.12%float /\
  py_round2 0.375 = 0.38%float /\ py_round2 (-0.001) = (-0)%float /\
  py_round2 550.0000000000001 = 550%float /\ py_round2 infinity = infinity.
Proof. by vm_compute. Qed.

(** [max(ids) + 1 if ids else 1]. *)
Definition next_id (ids : list Z) : Z :=
  match ids with
  | [] => 1
  | x :: rest => foldl Z.max x rest + 1
  end.

(** [l[start:stop]] for arbitrary integers: a negative index counts from the
    end, and both ends are clamped to the list. *)
Definition py_slice {A} (l : list A) (start stop : Z) : list A :=
  let len := Z.of_nat (length l) in
  let clamp i := if i <? 0 then Z.max 0 (i + len) else Z.min i len in
  let lo := clamp start in
  let hi := clamp stop in
  take (Z.to_nat (hi - lo)) (drop (Z.to_nat lo) l).

(** [str.lower()], on the ASCII letters. *)
Definition lower_ascii (c : ascii) : ascii :=
  let n := N_of_ascii c in
  if ((65 <=? n) && (n <=? 90))%N then ascii_of_N (n + 32) else c.

Fixpoint lower (s : string) : string :=
  match s with
  | EmptyString => EmptyString
  | String c s' => String (lower_ascii c) (lower s')
  end.

(** Truthiness of an [Optional[str]]: [None] and [""] are false. *)
Definition truthy (s : option string) : bool :=
  match s with
  | Some s => negb (bool_decide (s = ""))
  | None => false
  end.

(** ** utils.py *)

Definition calculate_platform_price (base_price : float) (platform : string)
    (manual_overrides : gmap string (option float)) : float :=
  match manual_overrides !! platform with
  | Some (Some override) => override
  | _ =>
      let price :=
        if decide (platform = "X") then (base_price * 1.10)%float
        else if decide (platform = "Y") then (base_price * 1.08 + 2.0)%float
        else if decide (platform = "Z") then (base_price * 1.12)%float
        else base_price in
      py_round2 price
  end.

Definition CONDITION_MAPPERS : gmap string (gmap string string) :=
  list_to_map
    [ ("X", list_to_map [("Excellent", "New"); ("Good", "Good"); ("Scrap", "Scrap")]);
      ("Y", list_to_map [("Excellent", "3 stars (Excellent)");
                         ("Good", "2 stars (Good)");
                         ("Usable", "1 star (Usable)")]);
      ("Z", list_to_map [("Excellent", "New"); ("Good", "As New"); ("Usable", "Good")]) ].

Definition map_condition_to_platform (internal_condition platform : string)
    : option string :=
  match CONDITION_MAPPERS !! platform with
  | Some platform_map =>
      if decide (platform_map = ∅) then None
      else platform_map !! internal_condition
  | None => None
  end.

(** ** models.py *)

(** The [specifications] entry of a stored phone: a mapping, or the JSON text
    of one (a CSV column) that has not been decoded yet. *)
Inductive Specs :=
| SpecsText (text : string)
| SpecsDict (d : gmap string string).

(** An entry of [db]; also the pydantic model [Phone] built from it. *)
Module Phone.
Record t := mk {
  id : Z;
  model_name : string;
  brand : string;
  condition : string;
  specifications : Specs;
  stock_quantity : Z;
  base_price : float;
  platform_prices : gmap string float;
  manual_overrides : gmap string (option float);
  listed_on : list string;
  tags : list string }.

Definition set_specifications (v : Specs) (p : t) : t :=
  mk (id p) (model_name p) (brand p) (condition p) v (stock_quantity p)
     (base_price p) (platform_prices p) (manual_overrides p) (listed_on p) (tags p).

Definition set_platform_prices (v : gmap string float) (p : t) : t :=
  mk (id p) (model_name p) (brand p) (condition p) (specifications p)
     (stock_quantity p) (base_price p) v (manual_overrides p) (listed_on p) (tags p).

Definition set_manual_overrides (v : gmap string (option float)) (p : t) : t :=
  mk (id p) (model_name p) (brand p) (condition p) (specifications p)
     (stock_quantity p) (base_price p) (platform_prices p) v (listed_on p) (tags p).

Definition set_listed_on (v : list string) (p : t) : t :=
  mk (id p) (model_name p) (brand p) (condition p) (specifications p)
     (stock_quantity p) (base_price p) (platform_prices p) (manual_overrides p) v (tags p).
End Phone.

(** The attribute mapping handed to [create_phone].  The API passes
    [PhoneCreate.dict()], which has exactly the six [PhoneBase] keys; bulk
    upload passes the records of the CSV file as they are, so the mapping may
    also carry an ["id"] key ([id = Some i]). *)
Module PhoneData.
Record t := mk {
  id : option Z;
  model_name : string;
  brand : string;
  condition : string;
  specifications : Specs;
  stock_quantity : Z;
  base_price : float }.

Definition set_specifications (v : Specs) (p : t) : t :=
  mk (id p) (model_name p) (brand p) (condition p) v (stock_quantity p) (base_price p).
End PhoneData.

(** [PhoneUpdate.dict(exclude_unset=True)]: the keys that were set, each with
    a value of its field's type. *)
Module PhoneUpdate.
Record t := mk {
  model_name : option string;
  brand : option string;
  condition : option string;
  specifications : option (gmap string string);
  stock_quantity : option Z;
  base_price : option float;
  tags : option (list string);
  manual_overrides : option (gmap string (option float)) }.
End PhoneUpdate.

Module PhonePage.
Record t := mk {
  total_items : Z;
  items : list Phone.t }.
End PhonePage.

(** A log entry.  The [timestamp] (the clock's time at creation) is left out. *)
Module ActionLog.
Record t := mk {
  id : Z;
  action : string;
  details : string }.
End ActionLog.

(** The constraints of the pydantic model [Phone] that the types above do not
    express: [stock_quantity] has [ge=0] and [base_price] has [gt=0]. *)
Definition Phone_valid (p : Phone.t) : bool :=
  (0 <=? Phone.stock_quantity p) && (0 <? Phone.base_price p)%float.

(** ** database.py and the state of the service *)

(** [db] and [action_log_db] are the lists held in memory;
    [PHONE_DATABASE_FILE] and [LOG_DATABASE_FILE] are the contents of the two
    JSON files. *)
Record Store := mkStore {
  db : list Phone.t;
  action_log_db : list ActionLog.t;
  PHONE_DATABASE_FILE : list Phone.t;
  LOG_DATABASE_FILE : list ActionLog.t }.

(** The state after the module is loaded with no (or an unreadable) file on
    disk: both loaders write [[]] and return it. *)
Definition empty_store : Store := mkStore [] [] [] [].

Inductive exn := ValidationError.

Inductive result (A : Type) :=
| Ok (a : A)
| Raise (e : exn).
Arguments Ok {A} a.
Arguments Raise {A} e.

(** A service call: it reads and writes the store and returns or raises; what
    it wrote before raising stays written. *)
Definition M (A : Type) : Type := Store -> result A * Store.

#[global] Instance M_ret : MRet M := fun A a st => (Ok a, st).

#[global] Instance M_bind : MBind M := fun A B f m st =>
  match m st with
  | (Ok a, st') => f a st'
  | (Raise e, st') => (Raise e, st')
  end.

Definition raise {A} (e : exn) : M A := fun st => (Raise e, st).

Definition get_db : M (list Phone.t) := fun st => (Ok (db st), st).

Definition set_db (d : list Phone.t) : M unit := fun st =>
  (Ok tt, mkStore d (action_log_db st) (PHONE_DATABASE_FILE st) (LOG_DATABASE_FILE st)).

Definition get_action_log_db : M (list ActionLog.t) := fun st =>
  (Ok (action_log_db st), st).

Definition set_action_log_db (l : list ActionLog.t) : M unit := fun st =>
  (Ok tt, mkStore (db st) l (PHONE_DATABASE_FILE st) (LOG_DATABASE_FILE st)).

Definition save_phone_database (data : list Phone.t) : M unit := fun st =>
  (Ok tt, mkStore (db st) (action_log_db st) data (LOG_DATABASE_FILE st)).

Definition save_log_database (data : list ActionLog.t) : M unit := fun st =>
  (Ok tt, mkStore (db st) (action_log_db st) (PHONE_DATABASE_FILE st) data).

(** The pydantic model [Phone] built from a stored entry [d] (the entry is
    unpacked into keyword arguments), or a [ValidationError]. *)
Definition Phone_model (d : Phone.t) : M Phone.t :=
  if Phone_valid d then mret d else raise ValidationError.

(** ** services.py *)

(** The dictionaries that carry a ['specifications'] key. *)
Class HasSpecifications (D : Type) := {
  get_specifications : D -> Specs;
  put_specifications : Specs -> D -> D }.

#[global] Instance Phone_specifications : HasSpecifications Phone.t :=
  {| get_specifications := Phone.specifications;
     put_specifications := Phone.set_specifications |}.

#[global] Instance PhoneData_specifications : HasSpecifications PhoneData.t :=
  {| get_specifications := PhoneData.specifications;
     put_specifications := PhoneData.set_specifications |}.

(** The result of [list_phone_on_platform]: a dictionary with the single key
    ["error"] or the single key ["message"]. *)
Inductive outcome :=
| error (msg : string)
| message (msg : string).

(** The result of [bulk_list_on_platform]: the dictionary with the keys
    ["success"] and ["failed"]. *)
Record bulk_counts := mk_bulk_counts {
  success : Z;
  failed : Z }.

(** The dictionary comprehension
    [{p: calculate_platform_price(base_price, p, overrides) for p in ["X", "Y", "Z"]}]. *)
Definition price_table (base_price : float)
    (manual_overrides : gmap string (option float)) : gmap string float :=
  list_to_map
    ((fun p => (p, calculate_platform_price base_price p manual_overrides))
       <$> ["X"; "Y"; "Z"]).

Definition recompute_prices (phone : Phone.t) : Phone.t :=
  Phone.set_platform_prices
    (price_table (Phone.base_price phone) (Phone.manual_overrides phone)) phone.

(** [phone.update(phone_update)]: every key of the update overwrites the
    entry's. *)
Definition dict_update (phone : Phone.t) (phone_update : PhoneUpdate.t) : Phone.t :=
  Phone.mk (Phone.id phone)
    (default (Phone.model_name phone) (PhoneUpdate.model_name phone_update))
    (default (Phone.brand phone) (PhoneUpdate.brand phone_update))
    (default (Phone.condition phone) (PhoneUpdate.condition phone_update))
    (from_option SpecsDict (Phone.specifications phone)
       (PhoneUpdate.specifications phone_update))
    (default (Phone.stock_quantity phone) (PhoneUpdate.stock_quantity phone_update))
    (default (Phone.base_price phone) (PhoneUpdate.base_price phone_update))
    (Phone.platform_prices phone)
    (default (Phone.manual_overrides phone) (PhoneUpdate.manual_overrides phone_update))
    (Phone.listed_on phone)
    (default (Phone.tags phone) (PhoneUpdate.tags phone_update)).

(** [del phone_update["manual_overrides"]]. *)
Definition del_manual_overrides (u : PhoneUpdate.t) : PhoneUpdate.t :=
  PhoneUpdate.mk (PhoneUpdate.model_name u) (PhoneUpdate.brand u)
    (PhoneUpdate.condition u) (PhoneUpdate.specifications u)
    (PhoneUpdate.stock_quantity u) (PhoneUpdate.base_price u)
    (PhoneUpdate.tags u) None.

(** The first entry of [d] whose id is [phone_id], with its position: what
    the loops [for phone in db: if phone["id"] == phone_id] stop at. *)
Definition find_by_id (phone_id : Z) (d : list Phone.t) : option (nat * Phone.t) :=
  list_find (fun phone => Phone.id phone = phone_id) d.

Section services.

(** [json.loads] on the text of a specifications column: the decoded object,
    or [None] for a [JSONDecodeError]. *)
Variable json_loads : string -> option (gmap string string).

Definition _ensure_specifications_is_dict {D} `{HasSpecifications D}
    (phone_data : D) : D :=
  match get_specifications phone_data with
  | SpecsText text =>
      put_specifications (SpecsDict (default ∅ (json_loads text))) phone_data
  | SpecsDict _ => phone_data
  end.

Definition log_action (action details : string) : M unit :=
  logs ← get_action_log_db;
  let log_id := next_id (ActionLog.id <$> logs) in
  let new_log := ActionLog.mk log_id action details in
  set_action_log_db (new_log :: logs);;
  logs ← get_action_log_db;
  save_log_database logs.

(** The entry found is normalised in place (in [db], not in the file) before
    the model is built from it. *)
Definition get_phone_by_id (phone_id : Z) : M (option Phone.t) :=
  d ← get_db;
  match find_by_id phone_id d with
  | Some (i, phone) =>
      let phone := _ensure_specifications_is_dict phone in
      set_db (<[i := phone]> d);;
      model ← Phone_model phone;
      mret (Some model)
  | None => mret None
  end.

(** In the literal [{"id": phone_id, **phone_data, "platform_prices": {}, ...}]
    an ["id"] key of [phone_data] comes after the assigned one and replaces
    it. *)
Definition create_phone (phone_data : PhoneData.t) : M Phone.t :=
  d ← get_db;
  let phone_id := next_id (Phone.id <$> d) in
  let phone_data := _ensure_specifications_is_dict phone_data in
  let new_phone :=
    Phone.mk (default phone_id (PhoneData.id phone_data))
      (PhoneData.model_name phone_data) (PhoneData.brand phone_data)
      (PhoneData.condition phone_data) (PhoneData.specifications phone_data)
      (PhoneData.stock_quantity phone_data) (PhoneData.base_price phone_data)
      ∅ ∅ [] [] in
  let new_phone := recompute_prices new_phone in
  set_db (d ++ [new_phone]);;
  d ← get_db;
  save_phone_database d;;
  log_action "Phone Created"
    ("New phone '" +:+ PhoneData.model_name phone_data +:+ "' was added.");;
  Phone_model new_phone.

Definition update_phone (phone_id : Z) (phone_update : PhoneUpdate.t)
    : M (option Phone.t) :=
  d ← get_db;
  match find_by_id phone_id d with
  | Some (i, phone) =>
      let '(phone, phone_update) :=
        match PhoneUpdate.manual_overrides phone_update with
        | Some overrides =>
            (Phone.set_manual_overrides overrides phone,
             del_manual_overrides phone_update)
        | None => (phone, phone_update)
        end in
      let phone := dict_update phone phone_update in
      let phone := recompute_prices phone in
      set_db (<[i := phone]> d);;
      d ← get_db;
      save_phone_database d;;
      log_action "Phone Updated"
        ("Phone ID " +:+ pretty phone_id +:+ " ('" +:+ Phone.model_name phone
           +:+ "') was updated.");;
      let phone := _ensure_specifications_is_dict phone in
      d ← get_db;
      set_db (<[i := phone]> d);;
      model ← Phone_model phone;
      mret (Some model)
  | None => mret None
  end.

(** [db.remove(phone_to_delete)] removes the first entry equal to the one
    found, which is the entry found: an equal entry before it would have the
    same id and would have been found instead. *)
Definition delete_phone (phone_id : Z) : M bool :=
  d ← get_db;
  match find_by_id phone_id d with
  | Some (i, phone_to_delete) =>
      let model_name := Phone.model_name phone_to_delete in
      set_db (delete i d);;
      d ← get_db;
      save_phone_database d;;
      log_action "Phone Deleted"
        ("Phone '" +:+ model_name +:+ "' (ID: " +:+ pretty phone_id
           +:+ ") was deleted.");;
      mret true
  | None => mret false
  end.

Definition list_phone_on_platform (phone_id : Z) (platform : string) : M outcome :=
  found ← get_phone_by_id phone_id;
  match found with
  | None => mret (error "Phone not found")
  | Some phone =>
      if bool_decide (Phone.stock_quantity phone = 0) then
        mret (error "Cannot list out-of-stock phone")
      else
        let platform_condition :=
          map_condition_to_platform (Phone.condition phone) platform in
        if negb (truthy platform_condition) then
          mret (error ("Condition '" +:+ Phone.condition phone
                         +:+ "' not supported on " +:+ platform))
        else if bool_decide (platform = "X") && (Phone.base_price phone <? 50)%float then
          mret (error "Listing fee too high for this phone on platform X")
        else
          (if bool_decide (platform ∈ Phone.listed_on phone) then mret tt
           else
             let listed_on := Phone.listed_on phone ++ [platform] in
             d ← get_db;
             match find_by_id phone_id d with
             | Some (i, phone_dict) =>
                 set_db (<[i := Phone.set_listed_on listed_on phone_dict]> d);;
                 d ← get_db;
                 save_phone_database d
             | None => mret tt
             end;;
             log_action "Platform Listing"
               ("'" +:+ Phone.model_name phone +:+ "' listed on platform "
                  +:+ platform +:+ "."));;
          mret (message ("Successfully listed '" +:+ Phone.model_name phone
                           +:+ "' on platform " +:+ platform))
  end.

(** One filter of a search: skipped when the argument is [None] or [""]. *)
Definition filter_by {A} (arg : option string) (keep : string -> A -> bool)
    (results : list A) : list A :=
  match arg with
  | Some v => if truthy arg then List.filter (keep v) results else results
  | None => results
  end.

(** The entries of [db] a search retains, each with its position in [db]
    (the lists [results] hold references to the entries of [db]). *)
Definition filtered (brand condition platform : option string)
    (d : list Phone.t) : list (nat * Phone.t) :=
  let results := imap pair d in
  let results :=
    filter_by brand
      (fun v r => bool_decide (lower (Phone.brand r.2) = lower v)) results in
  let results :=
    filter_by condition
      (fun v r => bool_decide (lower (Phone.condition r.2) = lower v)) results in
  filter_by platform (fun v r => bool_decide (v ∈ Phone.listed_on r.2)) results.

(** One element of the comprehension that builds [items]: the entry is
    normalised in place and its model is built. *)
Definition item_of (r : nat * Phone.t) : M Phone.t :=
  let phone := _ensure_specifications_is_dict r.2 in
  d ← get_db;
  set_db (<[r.1 := phone]> d);;
  Phone_model phone.

Definition search_and_filter_phones (brand condition platform : option string)
    (skip limit : Z) : M PhonePage.t :=
  d ← get_db;
  let results := filtered brand condition platform d in
  let total_items := Z.of_nat (length results) in
  let paginated_results := py_slice results skip (skip + limit) in
  items ← mapM item_of paginated_results;
  mret (PhonePage.mk total_items items).

(** The loop of [bulk_list_on_platform] over the models of the page. *)
Fixpoint bulk_list_loop (platform : string) (phones_to_list : list Phone.t)
    (success_count fail_count : Z) : M (Z * Z) :=
  match phones_to_list with
  | [] => mret (success_count, fail_count)
  | phone :: rest =>
      if bool_decide (platform ∈ Phone.listed_on phone) then
        bulk_list_loop platform rest success_count fail_count
      else
        result ← list_phone_on_platform (Phone.id phone) platform;
        match result with
        | error _ => bulk_list_loop platform rest success_count (fail_count + 1)
        | message _ => bulk_list_loop platform rest (success_count + 1) fail_count
        end
  end.

Definition bulk_list_on_platform (platform : string)
    (brand condition : option string) : M bulk_counts :=
  d ← get_db;
  phone_page ← search_and_filter_phones brand condition None 0 (Z.of_nat (length d));
  let phones_to_list := PhonePage.items phone_page in
  counts ← bulk_list_loop platform phones_to_list 0 0;
  let '(success_count, fail_count) := counts in
  log_action "Bulk Listing"
    ("Attempted to bulk list " +:+ pretty (success_count + fail_count)
       +:+ " phones on Platform " +:+ platform +:+ ". Success: "
       +:+ pretty success_count +:+ ", Failed: " +:+ pretty fail_count +:+ ".");;
  mret (mk_bulk_counts success_count fail_count).

Definition update_platform_prices : M unit :=
  d ← get_db;
  set_db (recompute_prices <$> d);;
  d ← get_db;
  save_phone_database d;;
  log_action "Price Update" "Automatic price update triggered for all phones.".

(** The loop of [bulk_upload_phones]. *)
Fixpoint bulk_upload_loop (phones_data : list PhoneData.t) (count : Z) : M Z :=
  match phones_data with
  | [] => mret count
  | phone_data :: rest =>
      let phone_data := _ensure_specifications_is_dict phone_data in
      create_phone phone_data;;
      bulk_upload_loop rest (count + 1)
  end.

Definition bulk_upload_phones (phones_data : list PhoneData.t) : M unit :=
  count ← bulk_upload_loop phones_data 0;
  log_action "Bulk Upload" (pretty count +:+ " phones were added via bulk upload.").

(** ** Runs of the service *)

(** A call of one of the operations of the service. *)
Inductive call :=
| CreatePhone (phone_data : PhoneData.t)
| UpdatePhone (phone_id : Z) (phone_update : PhoneUpdate.t)
| DeletePhone (phone_id : Z)
| ListPhoneOnPlatform (phone_id : Z) (platform : string)
| SearchAndFilterPhones (brand condition platform : option string) (skip limit : Z)
| BulkListOnPlatform (platform : string) (brand condition : option string)
| UpdatePlatformPrices
| BulkUploadPhones (phones_data : list PhoneData.t).

(** The store a call leaves behind, whether it returned or raised. *)
Definition perform (c : call) (st : Store) : Store :=
  match c with
  | CreatePhone phone_data => (create_phone phone_data st).2
  | UpdatePhone phone_id phone_update => (update_phone phone_id phone_update st).2
  | DeletePhone phone_id => (delete_phone phone_id st).2
  | ListPhoneOnPlatform phone_id platform => (list_phone_on_platform phone_id platform st).2
  | SearchAndFilterPhones brand condition platform skip limit =>
      (search_and_filter_phones brand condition platform skip limit st).2
  | BulkListOnPlatform platform brand condition =>
      (bulk_list_on_platform platform brand condition st).2
  | UpdatePlatformPrices => (update_platform_prices st).2
  | BulkUploadPhones phones_data => (bulk_upload_phones phones_data st).2
  end.

Definition run (calls : list call) (st : Store) : Store :=
  foldl (fun st c => perform c st) st calls.

End services.

(** ** Notions of the specification *)

(** The fee formula of a platform, before rounding, as the specification
    tabulates it: rate 1.10 on X, rate 1.08 plus 2.0 on Y, rate 1.12 on Z. *)
Definition fee_formula (b : float) (platform : string) : float :=
  if decide (platform = "X") then (b * 1.10)%float
  else if decide (platform = "Y") then (b * 1.08 + 2.0)%float
  else if decide (platform = "Z") then (b * 1.12)%float
  else b.

(** The platform has no present non-null override: its key is absent, or
    present with the value [None]. *)
Definition no_override (overrides : gmap string (option float))
    (platform : string) : Prop :=
  overrides !! platform = None \/ overrides !! platform = Some None.

(** ** The pricing engine *)

Lemma calculate_platform_price_no_override b platform overrides :
  no_override overrides platform ->
  calculate_platform_price b platform overrides = py_round2 (fee_formula b platform).
Proof.
  unfold calculate_platform_price, fee_formula.
  by intros [-> | ->].
Qed.



(** C2: a present non-null override is returned unchanged, whatever the base
    price; with the entry absent or null the fee formula applies. *)
Theorem override_takes_precedence (b : float) (platform : string)
    (overrides : gmap string (option float)) :
  (forall v, overrides !! platform = Some (Some v) ->
     forall b', calculate_platform_price b' platform overrides = v) /\
  (no_override overrides platform ->
     calculate_platform_price b platform overrides
     = py_round2 (fee_formula b platform)).
Proof.
  split.
  - intros v Hv b'. unfold calculate_platform_price. by rewrite Hv.
  - apply calculate_platform_price_no_override.
Qed.

Lemma override_takes_precedence_witness :
  calculate_platform_price 500 "Y" {[ "Y" := Some 545%float ]} = 545%float /\
  calculate_platform_price 1 "Y" {[ "Y" := Some 545%float ]} = 545%float /\
  calculate_platform_price 500 "Y" {[ "X" := Some 545%float ]} = 542%float.
Proof.
  pose proof (override_takes_precedence 500 "Y" {[ "Y" := Some 545%float ]}) as [H _].
  pose proof (override_takes_precedence 500 "Y" {[ "X" := Some 545%float ]}) as [_ H'].
  split; [|split].
  - by apply H.
  - by apply H.
  - rewrite H'; [by vm_compute | by left].
Defined.

(** The claim C7 as it is stated: on a platform code outside X, Y, Z without
    override the base price comes back unchanged. *)
Definition unknown_platform_returns_base_price : Prop :=
  forall (b : float) (platform : string) (overrides : gmap string (option float)),
    platform ∉ ["X"; "Y"; "Z"] ->
    no_override overrides platform ->
    calculate_platform_price b platform overrides = b.

(** On the unknown platform W the base price 0.125 comes back as 0.12: the
    result is rounded on every path. *)
Lemma unknown_platform_rounds_base_price :
  ~ unknown_platform_returns_base_price.
Proof.
  intros H.
  specialize (H 0.125%float "W" ∅).
  assert (Hr : calculate_platform_price 0.125 "W" ∅ = 0.12%float) by by vm_compute.
  rewrite Hr in H.
  assert (Heq : 0.12%float = 0.125%float).
  { apply H; [|by left]. by apply (bool_decide_unpack _). }
  apply (f_equal (fun x => PrimFloat.eqb x 0.125)) in Heq.
  vm_compute in Heq. discriminate.
Qed.

(** C7, amended: on a platform code outside X, Y, Z without override the
    result is the base price rounded to two decimals. *)
Theorem unknown_platform_returns_rounded_base_price (b : float)
    (platform : string) (overrides : gmap string (option float)) :
  platform ∉ ["X"; "Y"; "Z"] ->
  no_override overrides platform ->
  calculate_platform_price b platform overrides = py_round2 b.
Proof.
  intros Hp Ho.
  rewrite (calculate_platform_price_no_override _ _ _ Ho).
  unfold fee_formula.
  repeat case_decide; subst; try done; exfalso; apply Hp; set_solver.
Qed.

Lemma unknown_platform_returns_rounded_base_price_witness :
  calculate_platform_price 0.125 "W" ∅ = py_round2 0.125 /\
  py_round2 0.125 = 0.12%float.
Proof.
  split; [|by vm_compute].
  apply unknown_platform_returns_rounded_base_price; [|by left].
  by apply (bool_decide_unpack _).
Defined.

(** ** The inventory service: what each operation computes *)

Ltac unfold_M :=
  unfold mbind, M_bind, mret, M_ret, raise, Phone_model, get_db, set_db,
    get_action_log_db, set_action_log_db, save_phone_database,
    save_log_database in *; simpl in *.

(** The entry [log_action] puts at the head of the log. *)
Definition log_entry (logs : list ActionLog.t) (action details : string)
    : ActionLog.t :=
  ActionLog.mk (next_id (ActionLog.id <$> logs)) action details.

(** The store after [log_action]. *)
Definition logged (action details : string) (st : Store) : Store :=
  let logs := log_entry (action_log_db st) action details :: action_log_db st in
  mkStore (db st) logs (PHONE_DATABASE_FILE st) logs.

(** The store after the entries [d] are put in [db] and saved. *)
Definition saved (d : list Phone.t) (st : Store) : Store :=
  mkStore d (action_log_db st) d (LOG_DATABASE_FILE st).

(** The store with [d] in [db], nothing saved. *)
Definition with_db (d : list Phone.t) (st : Store) : Store :=
  mkStore d (action_log_db st) (PHONE_DATABASE_FILE st) (LOG_DATABASE_FILE st).


(** What [Phone_model] returns on an entry. *)
Definition model_of (phone : Phone.t) : result Phone.t :=
  if Phone_valid phone then Ok phone else Raise ValidationError.

Lemma log_action_eq action details st :
  log_action action details st = (Ok tt, logged action details st).
Proof. reflexivity. Qed.

Lemma with_db_same st : with_db (db st) st = st.
Proof. by destruct st. Qed.

Section service_facts.

Variable json_loads : string -> option (gmap string string).

#[local] Abbreviation ensure := (_ensure_specifications_is_dict json_loads).

(** The entry [create_phone] appends. *)
Definition new_phone (d : list Phone.t) (phone_data : PhoneData.t) : Phone.t :=
  let phone_data := ensure phone_data in
  recompute_prices
    (Phone.mk (default (next_id (Phone.id <$> d)) (PhoneData.id phone_data))
       (PhoneData.model_name phone_data) (PhoneData.brand phone_data)
       (PhoneData.condition phone_data) (PhoneData.specifications phone_data)
       (PhoneData.stock_quantity phone_data) (PhoneData.base_price phone_data)
       ∅ ∅ [] []).

Lemma create_phone_eq phone_data st :
  let phone := new_phone (db st) phone_data in
  create_phone json_loads phone_data st
  = (model_of phone,
     logged "Phone Created"
       ("New phone '" +:+ PhoneData.model_name phone_data +:+ "' was added.")
       (saved (db st ++ [phone]) st)).
Proof.
  intros phone. unfold create_phone, model_of. unfold_M.
  fold (new_phone (db st) phone_data). fold phone.
  assert (Hn : PhoneData.model_name (ensure phone_data)
               = PhoneData.model_name phone_data).
  { unfold _ensure_specifications_is_dict. simpl.
    by destruct (PhoneData.specifications phone_data). }
  rewrite Hn. by destruct (Phone_valid phone).
Qed.

(** The entry [update_phone] leaves in [db] before it builds the model. *)
Definition updated_phone (phone : Phone.t) (phone_update : PhoneUpdate.t)
    : Phone.t :=
  let '(phone, phone_update) :=
    match PhoneUpdate.manual_overrides phone_update with
    | Some overrides =>
        (Phone.set_manual_overrides overrides phone,
         del_manual_overrides phone_update)
    | None => (phone, phone_update)
    end in
  recompute_prices (dict_update phone phone_update).

Lemma update_phone_found phone_id phone_update st i phone :
  find_by_id phone_id (db st) = Some (i, phone) ->
  let phone' := updated_phone phone phone_update in
  update_phone json_loads phone_id phone_update st
  = (match model_of (ensure phone') with
     | Ok model => Ok (Some model)
     | Raise e => Raise e
     end,
     with_db (<[i := ensure phone']> (<[i := phone']> (db st)))
       (logged "Phone Updated"
          ("Phone ID " +:+ pretty phone_id +:+ " ('" +:+ Phone.model_name phone'
             +:+ "') was updated.")
          (saved (<[i := phone']> (db st)) st))).
Proof.
  intros Hf phone'. unfold update_phone. unfold_M. rewrite Hf.
  unfold phone', updated_phone, model_of.
  destruct (PhoneUpdate.manual_overrides phone_update); simpl;
    by match goal with |- context [Phone_valid ?p] => destruct (Phone_valid p) end.
Qed.

Lemma update_phone_not_found phone_id phone_update st :
  find_by_id phone_id (db st) = None ->
  update_phone json_loads phone_id phone_update st = (Ok None, st).
Proof. intros Hf. unfold update_phone. unfold_M. by rewrite Hf. Qed.

Lemma delete_phone_found phone_id st i phone :
  find_by_id phone_id (db st) = Some (i, phone) ->
  delete_phone phone_id st
  = (Ok true,
     logged "Phone Deleted"
       ("Phone '" +:+ Phone.model_name phone +:+ "' (ID: " +:+ pretty phone_id
          +:+ ") was deleted.")
       (saved (delete i (db st)) st)).
Proof. intros Hf. unfold delete_phone. unfold_M. by rewrite Hf. Qed.

Lemma delete_phone_not_found phone_id st :
  find_by_id phone_id (db st) = None ->
  delete_phone phone_id st = (Ok false, st).
Proof. intros Hf. unfold delete_phone. unfold_M. by rewrite Hf. Qed.

Lemma get_phone_by_id_found phone_id st i phone :
  find_by_id phone_id (db st) = Some (i, phone) ->
  get_phone_by_id json_loads phone_id st
  = (match model_of (ensure phone) with
     | Ok model => Ok (Some model)
     | Raise e => Raise e
     end,
     with_db (<[i := ensure phone]> (db st)) st).
Proof.
  intros Hf. unfold get_phone_by_id, model_of. unfold_M. rewrite Hf.
  by destruct (Phone_valid (ensure phone)).
Qed.

Lemma get_phone_by_id_not_found phone_id st :
  find_by_id phone_id (db st) = None ->
  get_phone_by_id json_loads phone_id st = (Ok None, st).
Proof. intros Hf. unfold get_phone_by_id. unfold_M. by rewrite Hf. Qed.

(** *** Normalising the specifications touches no other key *)

(** The specifications after [_ensure_specifications_is_dict]. *)
Definition normal_specs (s : Specs) : Specs :=
  match s with
  | SpecsText text => SpecsDict (default ∅ (json_loads text))
  | SpecsDict _ => s
  end.

Lemma ensure_phone (phone : Phone.t) :
  ensure phone = Phone.set_specifications (normal_specs (Phone.specifications phone)) phone.
Proof.
  unfold _ensure_specifications_is_dict. destruct phone as [? ? ? ? [t|d] ? ? ? ? ? ?]; done.
Qed.

Lemma ensure_idemp (phone : Phone.t) : ensure (ensure phone) = ensure phone.
Proof. rewrite !ensure_phone. by destruct phone as [? ? ? ? [t|d] ? ? ? ? ? ?]. Qed.

Lemma ensure_id (phone : Phone.t) : Phone.id (ensure phone) = Phone.id phone.
Proof. by rewrite ensure_phone. Qed.

Lemma ensure_valid (phone : Phone.t) : Phone_valid (ensure phone) = Phone_valid phone.
Proof. by rewrite ensure_phone. Qed.

Lemma ensure_listed_on (phone : Phone.t) :
  Phone.listed_on (ensure phone) = Phone.listed_on phone.
Proof. by rewrite ensure_phone. Qed.

(** *** Finding an entry by id *)

Lemma find_by_id_Some phone_id (d : list Phone.t) i phone :
  find_by_id phone_id d = Some (i, phone) <->
  d !! i = Some phone /\ Phone.id phone = phone_id /\
  (forall j other, d !! j = Some other -> (j < i)%nat -> Phone.id other <> phone_id).
Proof. unfold find_by_id. by rewrite list_find_Some. Qed.

Lemma find_by_id_None phone_id (d : list Phone.t) :
  find_by_id phone_id d = None <-> phone_id ∉ (Phone.id <$> d).
Proof.
  unfold find_by_id. rewrite list_find_None, list_elem_of_fmap, Forall_forall.
  split.
  - intros H (phone & -> & Hin). by apply (H phone).
  - intros H phone Hin Hid. apply H. by exists phone.
Qed.

(** Replacing the entry found by one of the same id leaves it the first of
    that id. *)
Lemma find_by_id_insert phone_id (d : list Phone.t) i phone phone' :
  find_by_id phone_id d = Some (i, phone) ->
  Phone.id phone' = phone_id ->
  find_by_id phone_id (<[i := phone']> d) = Some (i, phone').
Proof.
  rewrite !find_by_id_Some. intros (Hi & Hid & Hfirst) Hid'.
  split; [|split; [done|]].
  - apply list_lookup_insert_eq. by eapply lookup_lt_Some.
  - intros j other Hj Hlt. apply (Hfirst j other); [|done].
    rewrite list_lookup_insert_ne in Hj; [done | lia].
Qed.

(** *** Listing a phone *)

(** The eligibility chain of [list_phone_on_platform] on the model of a
    phone: the error message of the first check that fails. *)
Definition rejection (phone : Phone.t) (platform : string) : option string :=
  if bool_decide (Phone.stock_quantity phone = 0) then
    Some "Cannot list out-of-stock phone"
  else if negb (truthy (map_condition_to_platform (Phone.condition phone) platform)) then
    Some ("Condition '" +:+ Phone.condition phone +:+ "' not supported on " +:+ platform)
  else if bool_decide (platform = "X") && (Phone.base_price phone <? 50)%float then
    Some "Listing fee too high for this phone on platform X"
  else None.

Definition listing_success (phone : Phone.t) (platform : string) : outcome :=
  message ("Successfully listed '" +:+ Phone.model_name phone
             +:+ "' on platform " +:+ platform).

Lemma list_phone_on_platform_not_found phone_id platform st :
  find_by_id phone_id (db st) = None ->
  list_phone_on_platform json_loads phone_id platform st
  = (Ok (error "Phone not found"), st).
Proof.
  intros Hf. unfold list_phone_on_platform. unfold mbind, M_bind.
  by rewrite (get_phone_by_id_not_found _ _ Hf).
Qed.

Lemma list_phone_on_platform_invalid phone_id platform st i phone :
  find_by_id phone_id (db st) = Some (i, phone) ->
  Phone_valid phone = false ->
  list_phone_on_platform json_loads phone_id platform st
  = (Raise ValidationError, with_db (<[i := ensure phone]> (db st)) st).
Proof.
  intros Hf Hv. unfold list_phone_on_platform. unfold mbind, M_bind.
  rewrite (get_phone_by_id_found _ _ _ _ Hf). unfold model_of.
  by rewrite ensure_valid, Hv.
Qed.

Lemma list_phone_on_platform_found phone_id platform st i phone :
  find_by_id phone_id (db st) = Some (i, phone) ->
  Phone_valid phone = true ->
  let phone' := ensure phone in
  list_phone_on_platform json_loads phone_id platform st
  = match rejection phone' platform with
    | Some msg => (Ok (error msg), with_db (<[i := phone']> (db st)) st)
    | None =>
        (Ok (listing_success phone' platform),
         if bool_decide (platform ∈ Phone.listed_on phone') then
           with_db (<[i := phone']> (db st)) st
         else
           logged "Platform Listing"
             ("'" +:+ Phone.model_name phone' +:+ "' listed on platform "
                +:+ platform +:+ ".")
             (saved (<[i := Phone.set_listed_on
                              (Phone.listed_on phone' ++ [platform]) phone']> (db st))
                st))
    end.
Proof.
  intros Hf Hv phone'. unfold list_phone_on_platform. unfold mbind at 1, M_bind at 1.
  rewrite (get_phone_by_id_found _ _ _ _ Hf). unfold model_of.
  fold phone'. replace (Phone_valid phone') with true
    by (unfold phone'; by rewrite ensure_valid).
  unfold rejection.
  case_bool_decide; [done|].
  destruct (negb _); [done|].
  destruct (_ && _); [done|].
  case_bool_decide; [done|].
  assert (Hf' : find_by_id phone_id (<[i := phone']> (db st)) = Some (i, phone')).
  { apply (find_by_id_insert _ _ _ _ _ Hf). unfold phone'. rewrite ensure_id.
    by apply find_by_id_Some in Hf as (_ & ? & _). }
  unfold_M. rewrite Hf'. simpl.
  unfold saved, logged, listing_success. simpl.
  by rewrite list_insert_insert_eq.
Qed.

(** *** Searching *)

Lemma item_of_eq (r : nat * Phone.t) st :
  item_of json_loads r st
  = (model_of (ensure r.2), with_db (<[r.1 := ensure r.2]> (db st)) st).
Proof.
  unfold item_of, model_of. unfold_M. by destruct (Phone_valid (ensure r.2)).
Qed.

Lemma mapM_cons {A B} (f : A -> M B) (x : A) (l : list A) st :
  mapM (M:=M) f (x :: l) st
  = match f x st with
    | (Ok y, st') =>
        match mapM (M:=M) f l st' with
        | (Ok k, st'') => (Ok (y :: k), st'')
        | (Raise e, st'') => (Raise e, st'')
        end
    | (Raise e, st') => (Raise e, st')
    end.
Proof.
  simpl. unfold mbind, M_bind. destruct (f x st) as [[y|e] st']; [|done].
  by destruct (mapM (M:=M) f l st') as [[k|e] st''].
Qed.

Lemma search_and_filter_phones_eq brand condition platform skip limit st :
  let results := filtered brand condition platform (db st) in
  search_and_filter_phones json_loads brand condition platform skip limit st
  = match mapM (M:=M) (item_of json_loads)
            (py_slice results skip (skip + limit)) st with
    | (Ok items, st') =>
        (Ok (PhonePage.mk (Z.of_nat (length results)) items), st')
    | (Raise e, st') => (Raise e, st')
    end.
Proof.
  intros results. unfold search_and_filter_phones. unfold_M. fold results.
  by destruct (mapM (M:=M) _ _ st) as [[items|e] st'].
Qed.

(** *** Invariants of the entries of [db] *)

Section invariant.

(** A property of an entry that normalising its specifications, listing it on
    a platform that does not reject it, and recomputing its prices keep, and
    that a new entry has. *)
Variable P : Phone.t -> Prop.
Hypothesis P_ensure : forall phone, P phone -> P (ensure phone).
Hypothesis P_new : forall d phone_data, P (new_phone d phone_data).
Hypothesis P_listed : forall phone platform,
  P phone -> Phone_valid phone = true -> rejection phone platform = None ->
  P (Phone.set_listed_on (Phone.listed_on phone ++ [platform]) phone).
Hypothesis P_recompute : forall phone, P phone -> P (recompute_prices phone).

Definition inv (st : Store) : Prop := Forall P (db st).

Lemma inv_insert st i phone phone' :
  inv st -> db st !! i = Some phone -> (P phone -> P phone') ->
  Forall P (<[i := phone']> (db st)).
Proof.
  intros Hinv Hi HP. apply Forall_insert; [done|].
  apply HP. by eapply (Forall_lookup_1 P (db st)).
Qed.

Lemma create_phone_keeps phone_data st :
  inv st -> inv (create_phone json_loads phone_data st).2.
Proof.
  intros Hinv. rewrite create_phone_eq. unfold inv. simpl.
  apply Forall_app. split; [done|]. by apply Forall_singleton.
Qed.

Lemma delete_phone_keeps phone_id st : inv st -> inv (delete_phone phone_id st).2.
Proof.
  intros Hinv. destruct (find_by_id phone_id (db st)) as [[i phone]|] eqn:Hf.
  - rewrite (delete_phone_found _ _ _ _ Hf). unfold inv. simpl.
    by apply Forall_delete.
  - by rewrite (delete_phone_not_found _ _ Hf).
Qed.

Lemma list_phone_on_platform_keeps phone_id platform st :
  inv st -> inv (list_phone_on_platform json_loads phone_id platform st).2.
Proof.
  intros Hinv. destruct (find_by_id phone_id (db st)) as [[i phone]|] eqn:Hf.
  - pose proof Hf as (Hi & _ & _)%find_by_id_Some.
    destruct (Phone_valid phone) eqn:Hv.
    + rewrite (list_phone_on_platform_found _ _ _ _ _ Hf Hv). simpl.
      destruct (rejection (ensure phone) platform) eqn:Hr; simpl.
      { eapply inv_insert; eauto. }
      case_bool_decide; simpl.
      { eapply inv_insert; eauto. }
      eapply inv_insert; eauto. intros HP. apply P_listed; [auto| |done].
      by rewrite ensure_valid.
    + rewrite (list_phone_on_platform_invalid _ _ _ _ _ Hf Hv). simpl.
      eapply inv_insert; eauto.
  - by rewrite (list_phone_on_platform_not_found _ _ _ Hf).
Qed.

Lemma update_platform_prices_keeps st : inv st -> inv (update_platform_prices st).2.
Proof.
  intros Hinv. unfold inv. simpl. apply Forall_fmap.
  eapply Forall_impl; [exact Hinv|]. intros phone HP. by apply P_recompute.
Qed.

Lemma items_keep (rs : list (nat * Phone.t)) st :
  Forall (fun r => P r.2) rs -> inv st ->
  inv (mapM (M:=M) (item_of json_loads) rs st).2.
Proof.
  revert st. induction rs as [|r rs IH]; intros st Hrs Hinv; [done|].
  apply Forall_cons in Hrs as [Hr Hrs].
  rewrite mapM_cons, item_of_eq.
  assert (Hinv' : inv (with_db (<[r.1 := ensure r.2]> (db st)) st)).
  { unfold inv. simpl. apply Forall_insert; auto. }
  destruct (model_of (ensure r.2)); [|done].
  specialize (IH _ Hrs Hinv').
  by destruct (mapM (M:=M) _ rs _) as [[k|e] st''].
Qed.

Lemma Forall_filter_by {A} (Q : A -> Prop) arg keep (l : list A) :
  Forall Q l -> Forall Q (filter_by arg keep l).
Proof.
  intros Hl. unfold filter_by. destruct arg as [v|]; [|done].
  destruct (truthy _); [|done].
  induction Hl as [|x l Hx Hl IH]; [done|]. simpl.
  destruct (keep v x); [by constructor | done].
Qed.

Lemma Forall_py_slice {A} (Q : A -> Prop) (l : list A) start stop :
  Forall Q l -> Forall Q (py_slice l start stop).
Proof. intros Hl. unfold py_slice. by apply Forall_take, Forall_drop. Qed.

Lemma Forall_filtered brand condition platform (d : list Phone.t) :
  Forall P d -> Forall (fun r => P r.2) (filtered brand condition platform d).
Proof.
  intros Hd. unfold filtered. do 3 apply Forall_filter_by.
  apply Forall_forall. intros r (i & phone & -> & Hi)%elem_of_lookup_imap_1.
  simpl. by eapply (Forall_lookup_1 P d).
Qed.

Lemma search_and_filter_phones_keeps brand condition platform skip limit st :
  inv st ->
  inv (search_and_filter_phones json_loads brand condition platform skip limit st).2.
Proof.
  intros Hinv. rewrite search_and_filter_phones_eq.
  assert (H : inv (mapM (M:=M) (item_of json_loads)
                     (py_slice (filtered brand condition platform (db st))
                        skip (skip + limit)) st).2).
  { apply items_keep; [|done]. by apply Forall_py_slice, Forall_filtered. }
  by destruct (mapM (M:=M) _ _ st) as [[items|e] st'].
Qed.

Lemma bulk_list_loop_keeps platform phones_to_list success_count fail_count st :
  inv st ->
  inv (bulk_list_loop json_loads platform phones_to_list
         success_count fail_count st).2.
Proof.
  revert success_count fail_count st.
  induction phones_to_list as [|phone rest IH];
    intros success_count fail_count st Hinv; [done|].
  simpl. case_bool_decide; [by apply IH|].
  unfold mbind, M_bind.
  pose proof (list_phone_on_platform_keeps (Phone.id phone) platform st Hinv) as Hk.
  destruct (list_phone_on_platform _ _ _ st) as [[[msg|msg]|e] st']; simpl in *;
    [by apply IH | by apply IH | done].
Qed.

Lemma bulk_list_on_platform_keeps platform brand condition st :
  inv st -> inv (bulk_list_on_platform json_loads platform brand condition st).2.
Proof.
  intros Hinv. unfold bulk_list_on_platform.
  unfold mbind at 1, M_bind at 1, get_db at 1.
  unfold mbind at 1, M_bind at 1.
  pose proof (search_and_filter_phones_keeps brand condition None 0
                (Z.of_nat (length (db st))) st Hinv) as H.
  destruct (search_and_filter_phones _ _ _ _ _ _ st) as [[page|e] st']; [|done].
  simpl in H. unfold mbind at 1, M_bind at 1.
  pose proof (bulk_list_loop_keeps platform (PhonePage.items page) 0 0 st' H) as H'.
  destruct (bulk_list_loop _ _ _ _ _ st') as [[[s f]|e] st'']; [|done].
  done.
Qed.

Lemma bulk_upload_loop_keeps phones_data count st :
  inv st -> inv (bulk_upload_loop json_loads phones_data count st).2.
Proof.
  revert count st. induction phones_data as [|phone_data rest IH];
    intros count st Hinv; [done|].
  simpl. unfold mbind, M_bind.
  pose proof (create_phone_keeps (ensure phone_data) st Hinv) as H.
  destruct (create_phone _ _ st) as [[phone|e] st']; [by apply IH | done].
Qed.

Lemma bulk_upload_phones_keeps phones_data st :
  inv st -> inv (bulk_upload_phones json_loads phones_data st).2.
Proof.
  intros Hinv. unfold bulk_upload_phones. unfold mbind, M_bind.
  pose proof (bulk_upload_loop_keeps phones_data 0 st Hinv) as H.
  by destruct (bulk_upload_loop _ _ _ st) as [[count|e] st'].
Qed.

Lemma update_phone_keeps phone_id phone_update st :
  (forall phone, P phone -> P (updated_phone phone phone_update)) ->
  inv st -> inv (update_phone json_loads phone_id phone_update st).2.
Proof.
  intros HP Hinv. destruct (find_by_id phone_id (db st)) as [[i phone]|] eqn:Hf.
  - pose proof Hf as (Hi & _ & _)%find_by_id_Some.
    rewrite (update_phone_found _ _ _ _ _ Hf). unfold inv. simpl.
    rewrite list_insert_insert_eq. eapply inv_insert; eauto.
  - by rewrite (update_phone_not_found _ _ _ Hf).
Qed.

(** The calls that keep the property: all of them, the updates on condition
    that the updated entry has it. *)
Definition keeps_property (c : call) : Prop :=
  match c with
  | UpdatePhone _ phone_update =>
      forall phone, P phone -> P (updated_phone phone phone_update)
  | _ => True
  end.

Lemma perform_keeps c st :
  keeps_property c -> inv st -> inv (perform json_loads c st).
Proof.
  intros Hc Hinv. destruct c; unfold perform.
  - by apply create_phone_keeps.
  - by apply update_phone_keeps.
  - by apply delete_phone_keeps.
  - by apply list_phone_on_platform_keeps.
  - by apply search_and_filter_phones_keeps.
  - by apply bulk_list_on_platform_keeps.
  - by apply update_platform_prices_keeps.
  - by apply bulk_upload_phones_keeps.
Qed.

Lemma run_keeps calls st :
  Forall keeps_property calls -> inv st -> inv (run json_loads calls st).
Proof.
  revert st. induction calls as [|c calls IH]; intros st Hcalls Hinv; [done|].
  apply Forall_cons in Hcalls as [Hc Hcalls].
  simpl. apply IH; [done|]. by apply perform_keeps.
Qed.

End invariant.

End service_facts.

Arguments new_phone : simpl never.
Arguments updated_phone : simpl never.
Arguments next_id : simpl never.

(** ** Sample data *)

(** A decoder for the examples: it knows the text of the empty object and
    rejects every other text. *)
Definition sample_json_loads (text : string) : option (gmap string string) :=
  if decide (text = "{}") then Some ∅ else None.

(** The phone of the scenarios of the specification. *)
Definition iphone_12 : PhoneData.t :=
  PhoneData.mk None "iPhone 12" "Apple" "Good" (SpecsDict ∅) 10 500.

(** A second phone, as a CSV record with its specifications still encoded. *)
Definition pixel_5 : PhoneData.t :=
  PhoneData.mk None "Pixel 5" "Google" "Usable" (SpecsText "{}") 3 40.

(** ** Derived prices *)






(** An update that sets the override of Y to 545 and nothing else. *)
Definition override_Y : PhoneUpdate.t :=
  PhoneUpdate.mk None None None None None None None (Some {[ "Y" := Some 545%float ]}).


(** The scenarios of the specification: the iPhone 12 is created with the
    prices 550, 542 and 560; the override of Y then makes its price on Y
    545 and leaves the two others as they were. *)
Example scenario_prices :
  let st1 := run sample_json_loads [CreatePhone iphone_12] empty_store in
  let st2 := run sample_json_loads [UpdatePhone 1 override_Y] st1 in
  (map_to_list ∘ Phone.platform_prices <$> db st1
   = [[("Y", 542%float); ("Z", 560%float); ("X", 550%float)]]) /\
  (map_to_list ∘ Phone.platform_prices <$> db st2
   = [[("Y", 545%float); ("Z", 560%float); ("X", 550%float)]]).
Proof. by vm_compute. Qed.

(** ** Ids that are not in the collection *)

(** C9: for an id that no entry has, [update_phone] returns [None],
    [delete_phone] returns [False] and [list_phone_on_platform] returns the
    error "Phone not found"; the store (both lists and both files) is the one
    before the call. *)
Theorem absent_id_changes_nothing
    (json_loads : string -> option (gmap string string)) (st : Store)
    (phone_id : Z) (phone_update : PhoneUpdate.t) (platform : string) :
  phone_id ∉ (Phone.id <$> db st) ->
  update_phone json_loads phone_id phone_update st = (Ok None, st) /\
  delete_phone phone_id st = (Ok false, st) /\
  list_phone_on_platform json_loads phone_id platform st
  = (Ok (error "Phone not found"), st).
Proof.
  intros Hf%find_by_id_None. split; [|split].
  - by apply update_phone_not_found.
  - by apply delete_phone_not_found.
  - by apply list_phone_on_platform_not_found.
Qed.

Lemma absent_id_changes_nothing_witness :
  let st := run sample_json_loads [CreatePhone iphone_12; CreatePhone pixel_5] empty_store in
  (7 ∉ (Phone.id <$> db st)) /\
  update_phone sample_json_loads 7 override_Y st = (Ok None, st) /\
  delete_phone 7 st = (Ok false, st) /\
  list_phone_on_platform sample_json_loads 7 "X" st
  = (Ok (error "Phone not found"), st).
Proof.
  intros st.
  assert (H : 7 ∉ (Phone.id <$> db st)) by by apply (bool_decide_unpack _).
  split; [exact H|].
  exact (absent_id_changes_nothing sample_json_loads st 7 override_Y "X" H).
Defined.

(** ** Id assignment *)


Lemma ensure_phone_data json_loads (phone_data : PhoneData.t) :
  _ensure_specifications_is_dict json_loads phone_data
  = PhoneData.set_specifications
      (normal_specs json_loads (PhoneData.specifications phone_data)) phone_data.
Proof.
  unfold _ensure_specifications_is_dict.
  by destruct phone_data as [? ? ? ? [t|d] ? ?].
Qed.

Lemma new_phone_ensure json_loads d phone_data :
  new_phone json_loads d (_ensure_specifications_is_dict json_loads phone_data)
  = new_phone json_loads d phone_data.
Proof.
  unfold new_phone. rewrite !ensure_phone_data.
  by destruct phone_data as [? ? ? ? [t|s] ? ?].
Qed.

Lemma new_phone_id json_loads d phone_data :
  Phone.id (new_phone json_loads d phone_data)
  = default (next_id (Phone.id <$> d)) (PhoneData.id phone_data).
Proof. unfold new_phone. by rewrite ensure_phone_data. Qed.



(** [max(ids)] is one of the ids and bounds them all. *)
Lemma foldl_max_spec (x : Z) (rest : list Z) :
  foldl Z.max x rest ∈ x :: rest /\
  forall y, y ∈ x :: rest -> y <= foldl Z.max x rest.
Proof.
  revert x. induction rest as [|z rest IH]; intros x; simpl.
  - split; [by left|]. intros y ->%list_elem_of_singleton. lia.
  - destruct (IH (Z.max x z)) as [Hin Hub]. split.
    + apply elem_of_cons in Hin as [Heq|Hin]; [|by do 2 right].
      rewrite Heq. destruct (Z.max_spec x z) as [[_ ->]|[_ ->]];
        [right; by left | by left].
    + intros y Hy.
      assert (Hm : Z.max x z <= foldl Z.max (Z.max x z) rest)
        by (apply Hub; by left).
      apply elem_of_cons in Hy as [->|Hy]; [lia|].
      apply elem_of_cons in Hy as [->|Hy]; [lia|].
      apply Hub. by right.
Qed.

Lemma next_id_above (ids : list Z) (x : Z) : x ∈ ids -> x < next_id ids.
Proof.
  destruct ids as [|y rest]; [by intros ?%elem_of_nil|].
  intros Hx. unfold next_id. destruct (foldl_max_spec y rest) as [_ Hub].
  specialize (Hub x Hx). lia.
Qed.


(** Creating the phones of [phones_data] one after the other. *)
Definition creations (phones_data : list PhoneData.t) : list call :=
  CreatePhone <$> phones_data.









(** ** An ["id"] key in the attributes *)




(** A CSV record that carries the id 7. *)
Definition galaxy_with_id : PhoneData.t :=
  PhoneData.mk (Some 7) "Galaxy S21" "Samsung" "Excellent" (SpecsText "{}") 2 300.


(** After the record with the id 7, the next assigned id is 8. *)
Example ids_after_supplied_id :
  Phone.id <$> db (run sample_json_loads
                     [CreatePhone iphone_12; BulkUploadPhones [galaxy_with_id; pixel_5]]
                     empty_store)
  = [1; 7; 8].
Proof. by vm_compute. Qed.

(** ** Listing eligibility *)

(** The eligibility checks as the specification lists them: the phone is in
    stock, its condition has a label on the platform, and on X its base price
    is at least 50. *)
Definition eligible (phone : Phone.t) (platform : string) : Prop :=
  0 < Phone.stock_quantity phone /\
  is_Some (map_condition_to_platform (Phone.condition phone) platform) /\
  (platform = "X" -> (50 <=? Phone.base_price phone)%float = true).

(** Two facts on the comparison of floats with 50. *)
Lemma Prim2SF_50 : Prim2SF 50 = S754_finite false 7036874417766400 (-47).
Proof. by vm_compute. Qed.

Lemma positive_not_below_50 (x : float) :
  (0 <? x)%float = true -> (x <? 50)%float = false -> (50 <=? x)%float = true.
Proof.
  rewrite !ltb_spec, leb_spec, Prim2SF_50.
  assert (H0 : Prim2SF 0 = S754_zero false) by by vm_compute.
  rewrite H0. clear H0.
  destruct (Prim2SF x) as [s| [] | | [] m e];
    unfold SFltb, SFleb, SFcompare; try discriminate; try reflexivity.
  intros _. rewrite (Z.compare_antisym e (-47)).
  destruct (e ?= -47); cbn [CompOpp]; try discriminate; try reflexivity.
  change (Pos.compare_cont Eq 7036874417766400 m)
    with (Pos.compare_cont (CompOpp Eq) 7036874417766400 m).
  rewrite <- (Pos.compare_cont_antisym m 7036874417766400 Eq).
  destruct (Pos.compare_cont Eq m 7036874417766400); cbn [CompOpp];
    try discriminate; reflexivity.
Qed.


(** No label of [CONDITION_MAPPERS] is the empty string. *)
Lemma mapped_label_nonempty internal_condition platform label :
  map_condition_to_platform internal_condition platform = Some label ->
  label <> "".
Proof.
  unfold map_condition_to_platform, CONDITION_MAPPERS.
  destruct (list_to_map _ !! platform) as [platform_map|] eqn:Hm; [|done].
  apply elem_of_list_to_map_2 in Hm. case_decide; [done|]. intros Hl.
  rewrite !elem_of_cons, elem_of_nil in Hm.
  destruct Hm as [[= _ ->]|[[= _ ->]|[[= _ ->]|[]]]];
    repeat (apply lookup_insert_Some in Hl as [[_ <-]|[_ Hl]]; [done|]);
    by rewrite lookup_empty in Hl.
Qed.

Lemma truthy_mapped internal_condition platform :
  truthy (map_condition_to_platform internal_condition platform) = true
  <-> is_Some (map_condition_to_platform internal_condition platform).
Proof.
  destruct (map_condition_to_platform _ _) as [label|] eqn:Hl; simpl.
  - apply mapped_label_nonempty in Hl.
    rewrite bool_decide_eq_false_2 by done. split; [by eexists | done].
  - split; [done | by intros [? ?]].
Qed.


Lemma not_rejected_eligible phone platform :
  Phone_valid phone = true -> rejection phone platform = None ->
  eligible phone platform.
Proof.
  unfold Phone_valid, rejection. intros [Hs Hp]%andb_prop Hr.
  case_bool_decide as Hstock; [done|].
  destruct (truthy _) eqn:Hcond; [|done]. simpl in Hr.
  split; [|split].
  - apply Z.leb_le in Hs. lia.
  - by apply truthy_mapped.
  - intros HX. rewrite bool_decide_eq_true_2 in Hr by done. simpl in Hr.
    apply positive_not_below_50; [done|].
    by destruct (_ <? 50)%float.
Qed.



(** ** Listing twice *)



(** ** Listings and eligibility *)

(** Every platform the phone is listed on is one it passes the eligibility
    checks for. *)
Definition listings_eligible (phone : Phone.t) : Prop :=
  forall platform, platform ∈ Phone.listed_on phone -> eligible phone platform.

(** Claim C5 as it is stated: in every store reached from the empty one by
    calls of the service, every listing is an eligible one. *)
Definition listings_always_eligible : Prop :=
  forall (json_loads : string -> option (gmap string string)) (calls : list call),
    Forall listings_eligible (db (run json_loads calls empty_store)).

(** An update that sets the stock to 0 and nothing else. *)
Definition sold_out : PhoneUpdate.t :=
  PhoneUpdate.mk None None None None (Some 0) None None None.

(** The iPhone 12 is created and listed on X, then its stock is updated to
    0: it stays listed on X, out of stock. *)
Lemma update_keeps_ineligible_listing : ~ listings_always_eligible.
Proof.
  intros H.
  specialize (H sample_json_loads
                [CreatePhone iphone_12; ListPhoneOnPlatform 1 "X"; UpdatePhone 1 sold_out]).
  destruct (db (run sample_json_loads _ empty_store)) as [|phone rest] eqn:Hdb;
    [by vm_compute in Hdb|].
  apply Forall_cons in H as [H _].
  assert (Hphone : Phone.listed_on phone = ["X"] /\ Phone.stock_quantity phone = 0).
  { vm_compute in Hdb. by injection Hdb as <- _. }
  destruct Hphone as [Hlisted Hstock].
  destruct (H "X") as [Hpos _]; [rewrite Hlisted; by left|]. lia.
Qed.

(** The calls that cannot make a listing ineligible: every call but the
    updates that set the stock, the condition or the base price. *)
Definition keeps_eligibility (c : call) : Prop :=
  match c with
  | UpdatePhone _ phone_update =>
      PhoneUpdate.stock_quantity phone_update = None /\
      PhoneUpdate.condition phone_update = None /\
      PhoneUpdate.base_price phone_update = None
  | _ => True
  end.

Lemma listings_eligible_ensure json_loads (phone : Phone.t) :
  listings_eligible phone ->
  listings_eligible (_ensure_specifications_is_dict json_loads phone).
Proof. by rewrite ensure_phone. Qed.

Lemma listings_eligible_new json_loads d phone_data :
  listings_eligible (new_phone json_loads d phone_data).
Proof. intros platform Hin. unfold new_phone in Hin. by apply elem_of_nil in Hin. Qed.

Lemma listings_eligible_listed (phone : Phone.t) platform :
  listings_eligible phone -> Phone_valid phone = true ->
  rejection phone platform = None ->
  listings_eligible
    (Phone.set_listed_on (Phone.listed_on phone ++ [platform]) phone).
Proof.
  intros Hall Hv Hr other Hin. change (eligible phone other).
  change (other ∈ Phone.listed_on phone ++ [platform]) in Hin.
  apply elem_of_app in Hin as [Hin | ->%list_elem_of_singleton]; [by apply Hall|].
  by apply not_rejected_eligible.
Qed.

Lemma listings_eligible_updated (phone : Phone.t) phone_update :
  PhoneUpdate.stock_quantity phone_update = None ->
  PhoneUpdate.condition phone_update = None ->
  PhoneUpdate.base_price phone_update = None ->
  listings_eligible phone -> listings_eligible (updated_phone phone phone_update).
Proof.
  intros Hs Hc Hb Hall platform Hin.
  destruct phone_update as [? ? ? ? ? ? ? overrides]. simpl in Hs, Hc, Hb. subst.
  destruct overrides; exact (Hall platform Hin).
Qed.

(** C5, amended: in every store reached by calls of the service other than
    updates of the stock, condition or base price, from a store where every
    listing is eligible (the empty one, for instance), every platform in a
    phone's [listed_on] is one the phone passes the eligibility checks for:
    it is in stock, its condition has a label there, and on X its base price
    is at least 50. *)
Theorem listings_stay_eligible
    (json_loads : string -> option (gmap string string)) (st : Store)
    (calls : list call) :
  Forall listings_eligible (db st) ->
  Forall keeps_eligibility calls ->
  forall phone platform,
    phone ∈ db (run json_loads calls st) ->
    platform ∈ Phone.listed_on phone ->
    0 < Phone.stock_quantity phone /\
    is_Some (map_condition_to_platform (Phone.condition phone) platform) /\
    (platform = "X" -> (50 <=? Phone.base_price phone)%float = true).
Proof.
  intros Hst Hcalls phone platform Hphone Hlisted.
  assert (Hinv : Forall listings_eligible (db (run json_loads calls st))).
  { apply (run_keeps json_loads listings_eligible); try done.
    - apply listings_eligible_ensure.
    - apply listings_eligible_new.
    - apply listings_eligible_listed.
    - eapply Forall_impl; [exact Hcalls|]. intros c Hc. destruct c; try done.
      destruct Hc as (Hs & Hc & Hb). intros other.
      by apply listings_eligible_updated. }
  rewrite Forall_forall in Hinv. exact (Hinv phone Hphone platform Hlisted).
Qed.

(** An update of the tags only. *)
Definition tag_refurbished : PhoneUpdate.t :=
  PhoneUpdate.mk None None None None None None (Some ["refurbished"]) None.

Lemma listings_stay_eligible_witness :
  let calls := [CreatePhone iphone_12; CreatePhone pixel_5;
                BulkListOnPlatform "X" None None; ListPhoneOnPlatform 2 "Y";
                UpdatePhone 1 tag_refurbished; UpdatePlatformPrices] in
  let st := run sample_json_loads calls empty_store in
  Phone.listed_on <$> db st = [["X"]; ["Y"]] /\
  forall phone platform,
    phone ∈ db st -> platform ∈ Phone.listed_on phone -> eligible phone platform.
Proof.
  intros calls st. split; [by vm_compute|].
  apply (listings_stay_eligible sample_json_loads empty_store calls).
  - constructor.
  - by repeat constructor.
Defined.

(** ** Search and pagination *)



(** The stored specifications are a mapping already. *)
Definition specifications_decoded (phone : Phone.t) : Prop :=
  exists d, Phone.specifications phone = SpecsDict d.






Lemma ensure_decoded json_loads (phone : Phone.t) :
  specifications_decoded phone ->
  _ensure_specifications_is_dict json_loads phone = phone.
Proof.
  intros [d Hd]. rewrite ensure_phone.
  destruct phone as [? ? ? ? specs ? ? ? ? ? ?]. simpl in Hd. by subst.
Qed.


Lemma filtered_lookup brand condition platform (d : list Phone.t) :
  Forall (fun r => d !! r.1 = Some r.2) (filtered brand condition platform d).
Proof.
  unfold filtered. do 3 apply Forall_filter_by.
  apply Forall_forall. by intros r (i & phone & -> & Hi)%elem_of_lookup_imap_1.
Qed.




(** The stores the service builds hold decoded specifications only: the
    attributes of a new phone are normalised before they are stored, and an
    update can only put a mapping. *)
Lemma stored_specifications_are_decoded json_loads calls st :
  Forall specifications_decoded (db st) ->
  Forall specifications_decoded (db (run json_loads calls st)).
Proof.
  intros Hst. apply (run_keeps json_loads specifications_decoded); try done.
  - intros phone _. rewrite ensure_phone.
    destruct phone as [? ? ? ? [t|d] ? ? ? ? ? ?]; by eexists.
  - intros d phone_data. unfold new_phone. rewrite ensure_phone_data.
    destruct phone_data as [? ? ? ? [t|s] ? ?]; by eexists.
  - apply Forall_forall. intros c _. destruct c; try done.
    intros phone [d Hd]. unfold updated_phone.
    destruct phone_update as [? ? ? [s|] ? ? ? [o|]]; simpl; by eexists.
Qed.

(** ** The listing scenarios of the specification *)

(** The iPhone 12 is listed on X; a phone of base price 40 is refused there
    for its fee and stays unlisted; a phone out of stock is refused on every
    platform. *)
Example scenario_listing :
  let cheap := PhoneData.mk None "Moto G" "Motorola" "Good" (SpecsDict ∅) 4 40 in
  let none_left := PhoneData.mk None "Pixel 4" "Google" "Good" (SpecsDict ∅) 0 200 in
  let st := run sample_json_loads (creations [iphone_12; cheap; none_left])
              empty_store in
  (list_phone_on_platform sample_json_loads 1 "X" st).1
  = Ok (message "Successfully listed 'iPhone 12' on platform X") /\
  (list_phone_on_platform sample_json_loads 2 "X" st).1
  = Ok (error "Listing fee too high for this phone on platform X") /\
  Phone.listed_on <$> db (list_phone_on_platform sample_json_loads 2 "X" st).2
  = [[]; []; []] /\
  (fun platform => (list_phone_on_platform sample_json_loads 3 platform st).1)
    <$> ["X"; "Y"; "Z"]
  = [Ok (error "Cannot list out-of-stock phone");
     Ok (error "Cannot list out-of-stock phone");
     Ok (error "Cannot list out-of-stock phone")].
Proof. by vm_compute. Qed.

(** * Further properties: how the store evolves *)

(** ** The elementary writes of the service *)

Section steps.

Variable json_loads : string -> option (gmap string string).

(** The attributes and the updates the calls under consideration may carry. *)
Variable new_ok : PhoneData.t -> Prop.
Variable upd_ok : PhoneUpdate.t -> Prop.

#[local] Abbreviation ensure := (_ensure_specifications_is_dict json_loads).

(** One write of the service.  An entry is normalised in memory only; a new
    entry is appended, an entry is updated, listed or removed, or all prices
    are recomputed, and [db] is saved; an entry is put at the head of the log
    and the log is saved. *)
Inductive step : Store -> Store -> Prop :=
| step_normalise st i phone :
    db st !! i = Some phone ->
    step st (with_db (<[i := ensure phone]> (db st)) st)
| step_append st phone_data :
    new_ok phone_data ->
    step st (saved (db st ++ [new_phone json_loads (db st) phone_data]) st)
| step_update st i phone phone_update :
    db st !! i = Some phone -> upd_ok phone_update ->
    step st (saved (<[i := updated_phone phone phone_update]> (db st)) st)
| step_list st i phone platform :
    db st !! i = Some phone ->
    Phone_valid phone = true ->
    rejection phone platform = None ->
    platform ∉ Phone.listed_on phone ->
    step st (saved (<[i := Phone.set_listed_on
                             (Phone.listed_on phone ++ [platform]) phone]> (db st)) st)
| step_delete st i phone :
    db st !! i = Some phone ->
    step st (saved (delete i (db st)) st)
| step_prices st :
    step st (saved (recompute_prices <$> db st) st)
| step_log st action details :
    step st (logged action details st).

(** The calls whose attributes and updates are the ones under
    consideration. *)
Definition call_ok (c : call) : Prop :=
  match c with
  | CreatePhone phone_data => new_ok phone_data
  | UpdatePhone _ phone_update => upd_ok phone_update
  | BulkUploadPhones phones_data => Forall new_ok phones_data
  | _ => True
  end.

Lemma create_phone_steps phone_data st :
  new_ok phone_data -> rtc step st (create_phone json_loads phone_data st).2.
Proof.
  intros Hok. rewrite create_phone_eq. cbn [snd].
  eapply rtc_l; [by apply step_append|]. apply rtc_once, step_log.
Qed.

Lemma update_phone_steps phone_id phone_update st :
  upd_ok phone_update ->
  rtc step st (update_phone json_loads phone_id phone_update st).2.
Proof.
  intros Hok. destruct (find_by_id phone_id (db st)) as [[i phone]|] eqn:Hf.
  - pose proof Hf as (Hi & _ & _)%find_by_id_Some.
    rewrite (update_phone_found _ _ _ _ _ _ Hf). cbn [snd].
    eapply rtc_l; [by eapply step_update|].
    eapply rtc_l; [apply step_log|].
    apply rtc_once.
    match goal with |- step ?s _ =>
      apply (step_normalise s i (updated_phone phone phone_update)) end.
    cbn [db logged saved]. apply list_lookup_insert_eq. by eapply lookup_lt_Some.
  - rewrite (update_phone_not_found _ _ _ _ Hf). apply rtc_refl.
Qed.

Lemma delete_phone_steps phone_id st : rtc step st (delete_phone phone_id st).2.
Proof.
  destruct (find_by_id phone_id (db st)) as [[i phone]|] eqn:Hf.
  - pose proof Hf as (Hi & _ & _)%find_by_id_Some.
    rewrite (delete_phone_found _ _ _ _ Hf). cbn [snd].
    eapply rtc_l; [by eapply step_delete|]. apply rtc_once, step_log.
  - rewrite (delete_phone_not_found _ _ Hf). apply rtc_refl.
Qed.

Lemma list_phone_on_platform_steps phone_id platform st :
  rtc step st (list_phone_on_platform json_loads phone_id platform st).2.
Proof.
  destruct (find_by_id phone_id (db st)) as [[i phone]|] eqn:Hf.
  - pose proof Hf as (Hi & _ & _)%find_by_id_Some.
    assert (Hnorm : step st (with_db (<[i := ensure phone]> (db st)) st))
      by by apply step_normalise.
    destruct (Phone_valid phone) eqn:Hv.
    + rewrite (list_phone_on_platform_found _ _ _ _ _ _ Hf Hv). cbn zeta.
      destruct (rejection (ensure phone) platform) eqn:Hr; cbn [snd];
        [by apply rtc_once|].
      case_bool_decide as Hin; [by apply rtc_once|].
      eapply rtc_l; [exact Hnorm|].
      eapply rtc_l; [|apply rtc_once, step_log].
      match goal with |- step ?s ?s' =>
        replace s' with
          (saved (<[i := Phone.set_listed_on
                           (Phone.listed_on (ensure phone) ++ [platform])
                           (ensure phone)]> (db s)) s) end.
      * apply step_list; try done.
        -- cbn [db with_db]. apply list_lookup_insert_eq. by eapply lookup_lt_Some.
        -- by rewrite ensure_valid.
      * unfold saved. cbn [db with_db action_log_db LOG_DATABASE_FILE].
        by rewrite list_insert_insert_eq.
    + rewrite (list_phone_on_platform_invalid _ _ _ _ _ _ Hf Hv). by apply rtc_once.
  - rewrite (list_phone_on_platform_not_found _ _ _ _ Hf). apply rtc_refl.
Qed.

(** [d] is [d0] with some of its entries normalised. *)
Definition normalised_from (d0 d : list Phone.t) : Prop :=
  forall j phone, d0 !! j = Some phone ->
    d !! j = Some phone \/ d !! j = Some (ensure phone).

Lemma items_steps d0 (rs : list (nat * Phone.t)) st :
  Forall (fun r => d0 !! r.1 = Some r.2) rs ->
  normalised_from d0 (db st) ->
  rtc step st (mapM (M:=M) (item_of json_loads) rs st).2.
Proof.
  revert st. induction rs as [|r rs IH]; intros st Hrs Hnorm; [apply rtc_refl|].
  apply Forall_cons in Hrs as [Hr Hrs].
  rewrite mapM_cons, item_of_eq.
  set (s1 := with_db (<[r.1 := ensure r.2]> (db st)) st).
  assert (Hlt : (r.1 < length (db st))%nat).
  { destruct (Hnorm _ _ Hr) as [H|H]; by eapply lookup_lt_Some. }
  assert (Hstep : step st s1).
  { destruct (Hnorm _ _ Hr) as [H|H].
    - by apply step_normalise.
    - unfold s1. rewrite <- (ensure_idemp json_loads r.2). by apply step_normalise. }
  assert (Hnorm1 : normalised_from d0 (db s1)).
  { intros j phone Hj. unfold s1. cbn [db with_db].
    destruct (decide (j = r.1)) as [->|Hne].
    - rewrite Hr in Hj. injection Hj as <-. right.
      by apply list_lookup_insert_eq.
    - rewrite list_lookup_insert_ne by done. by apply Hnorm. }
  destruct (model_of (ensure r.2)); [|by apply rtc_once].
  specialize (IH s1 Hrs Hnorm1).
  destruct (mapM (M:=M) _ rs s1) as [[k|e] s2]; by eapply rtc_l.
Qed.

Lemma search_and_filter_phones_steps brand condition platform skip limit st :
  rtc step st
    (search_and_filter_phones json_loads brand condition platform skip limit st).2.
Proof.
  rewrite search_and_filter_phones_eq. cbn zeta.
  assert (H : rtc step st
                (mapM (M:=M) (item_of json_loads)
                   (py_slice (filtered brand condition platform (db st))
                      skip (skip + limit)) st).2).
  { apply (items_steps (db st)); [|by left].
    apply Forall_py_slice, filtered_lookup. }
  by destruct (mapM (M:=M) _ _ st) as [[items|e] st'].
Qed.

Lemma bulk_list_loop_steps platform phones_to_list success_count fail_count st :
  rtc step st
    (bulk_list_loop json_loads platform phones_to_list success_count fail_count st).2.
Proof.
  revert success_count fail_count st.
  induction phones_to_list as [|phone rest IH]; intros success_count fail_count st;
    [apply rtc_refl|].
  cbn [bulk_list_loop]. case_bool_decide; [apply IH|].
  unfold mbind, M_bind.
  pose proof (list_phone_on_platform_steps (Phone.id phone) platform st) as Hl.
  destruct (list_phone_on_platform _ _ _ st) as [[[msg|msg]|e] st']; cbn [snd] in Hl;
    [| |done]; (etrans; [exact Hl|apply IH]).
Qed.

Lemma bulk_list_on_platform_steps platform brand condition st :
  rtc step st (bulk_list_on_platform json_loads platform brand condition st).2.
Proof.
  unfold bulk_list_on_platform.
  unfold mbind at 1, M_bind at 1, get_db at 1.
  unfold mbind at 1, M_bind at 1.
  pose proof (search_and_filter_phones_steps brand condition None 0
                (Z.of_nat (length (db st))) st) as Hs.
  destruct (search_and_filter_phones _ _ _ _ _ _ st) as [[page|e] st']; [|done].
  cbn [snd] in Hs. unfold mbind at 1, M_bind at 1.
  pose proof (bulk_list_loop_steps platform (PhonePage.items page) 0 0 st') as Hl.
  destruct (bulk_list_loop _ _ _ _ _ st') as [[[s f]|e] st''];
    cbn [snd] in Hl; [|by etrans].
  unfold mbind, M_bind. rewrite log_action_eq. cbn [snd].
  etrans; [exact Hs|]. etrans; [exact Hl|]. apply rtc_once, step_log.
Qed.

Lemma update_platform_prices_steps st : rtc step st (update_platform_prices st).2.
Proof.
  change (update_platform_prices st).2
    with (logged "Price Update" "Automatic price update triggered for all phones."
            (saved (recompute_prices <$> db st) st)).
  eapply rtc_l; [apply step_prices|]. apply rtc_once, step_log.
Qed.

Lemma bulk_upload_loop_steps phones_data count st :
  Forall new_ok phones_data ->
  rtc step st (bulk_upload_loop json_loads phones_data count st).2.
Proof.
  revert count st. induction phones_data as [|phone_data rest IH];
    intros count st Hok; [apply rtc_refl|].
  apply Forall_cons in Hok as [Hok Hrest].
  cbn [bulk_upload_loop]. unfold mbind, M_bind.
  rewrite create_phone_eq, new_phone_ensure. cbn zeta.
  set (s1 := logged _ _ _).
  assert (H1 : rtc step st s1).
  { eapply rtc_l; [by apply step_append|]. apply rtc_once, step_log. }
  destruct (model_of _); [|done].
  etrans; [exact H1|]. by apply IH.
Qed.

Lemma bulk_upload_phones_steps phones_data st :
  Forall new_ok phones_data ->
  rtc step st (bulk_upload_phones json_loads phones_data st).2.
Proof.
  intros Hok. unfold bulk_upload_phones, mbind, M_bind.
  pose proof (bulk_upload_loop_steps phones_data 0 st Hok) as Hl.
  destruct (bulk_upload_loop _ _ _ st) as [[count|e] st']; cbn [snd] in Hl; [|done].
  rewrite log_action_eq. cbn [snd]. etrans; [exact Hl|]. apply rtc_once, step_log.
Qed.

(** Every call is a sequence of elementary writes. *)
Lemma perform_steps c st : call_ok c -> rtc step st (perform json_loads c st).
Proof.
  intros Hc. destruct c; unfold perform.
  - by apply create_phone_steps.
  - by apply update_phone_steps.
  - apply delete_phone_steps.
  - apply list_phone_on_platform_steps.
  - apply search_and_filter_phones_steps.
  - apply bulk_list_on_platform_steps.
  - apply update_platform_prices_steps.
  - by apply bulk_upload_phones_steps.
Qed.

Lemma run_steps calls st :
  Forall call_ok calls -> rtc step st (run json_loads calls st).
Proof.
  revert st. induction calls as [|c calls IH]; intros st Hcalls; [apply rtc_refl|].
  apply Forall_cons in Hcalls as [Hc Hcalls].
  cbn [run foldl]. etrans; [by apply perform_steps|]. by apply IH.
Qed.

(** A property of the store that every elementary write keeps holds after
    every run. *)
Lemma steps_keep (I : Store -> Prop) :
  (forall s s', step s s' -> I s -> I s') ->
  forall s s', rtc step s s' -> I s -> I s'.
Proof. intros Hstep s s' Hrtc. induction Hrtc; eauto. Qed.

End steps.

(** ** Ids are unique *)

(** The attributes carry no ["id"] key, as when they come from the API. *)
Definition no_id (phone_data : PhoneData.t) : Prop :=
  PhoneData.id phone_data = None.

(** Any update. *)
Definition any_update (phone_update : PhoneUpdate.t) : Prop := True.

(** Any attributes. *)
Definition any_data (phone_data : PhoneData.t) : Prop := True.

Lemma StronglySorted_delete {A} (R : relation A) (l : list A) i :
  StronglySorted R l -> StronglySorted R (delete i l).
Proof.
  intros Hl. revert i. induction Hl as [|x l Hl IH Hx]; intros i; [constructor|].
  destruct i as [|i]; [done|]. simpl.
  constructor; [apply IH | by apply Forall_delete].
Qed.

Lemma StronglySorted_lt_NoDup (l : list Z) : StronglySorted Z.lt l -> NoDup l.
Proof.
  induction 1 as [|x l Hl IH Hx]; constructor; [|done].
  intros Hin. rewrite Forall_forall in Hx. specialize (Hx x Hin). lia.
Qed.

Lemma updated_phone_id phone phone_update :
  Phone.id (updated_phone phone phone_update) = Phone.id phone.
Proof.
  unfold updated_phone. by destruct (PhoneUpdate.manual_overrides phone_update).
Qed.

Lemma updated_phone_listed_on phone phone_update :
  Phone.listed_on (updated_phone phone phone_update) = Phone.listed_on phone.
Proof.
  unfold updated_phone. by destruct (PhoneUpdate.manual_overrides phone_update).
Qed.

(** Replacing an entry by one that agrees with it on a key leaves the list of
    the values of that key as it was. *)
Lemma fmap_insert_same {B} (f : Phone.t -> B) (d : list Phone.t) i phone phone' :
  d !! i = Some phone -> f phone' = f phone -> f <$> <[i := phone']> d = f <$> d.
Proof.
  intros Hi Hf. rewrite list_fmap_insert, Hf. apply list_insert_id.
  by rewrite list_lookup_fmap, Hi.
Qed.

Lemma step_ids_increasing json_loads upd_ok s s' :
  step json_loads no_id upd_ok s s' ->
  StronglySorted Z.lt (Phone.id <$> db s) ->
  StronglySorted Z.lt (Phone.id <$> db s').
Proof.
  intros Hstep Hs.
  destruct Hstep as [st i phone Hi|st phone_data Hid|st i phone phone_update Hi _
                    |st i phone platform Hi _ _ _|st i phone Hi|st|st action details];
    cbn [db with_db saved logged].
  - by rewrite (fmap_insert_same _ _ _ _ _ Hi (ensure_id json_loads phone)).
  - rewrite fmap_app. apply StronglySorted_app_2; [|done|repeat constructor].
    intros x1 x2 Hx1 ->%list_elem_of_singleton.
    rewrite new_phone_id, Hid. by apply next_id_above.
  - by rewrite (fmap_insert_same _ _ _ _ _ Hi (updated_phone_id phone phone_update)).
  - by rewrite (fmap_insert_same Phone.id _ i phone (Phone.set_listed_on _ phone)
                  Hi eq_refl).
  - rewrite list_fmap_delete. by apply StronglySorted_delete.
  - by rewrite <- list_fmap_compose.
  - done.
Qed.

(** X1: when no created or uploaded phone brings an id of its own, the ids
    of the collection are strictly increasing in the order of [db], hence
    pairwise distinct, after every run of calls from a store where they are
    (the empty one, for instance). *)
Theorem ids_stay_increasing
    (json_loads : string -> option (gmap string string)) (st : Store)
    (calls : list call) :
  StronglySorted Z.lt (Phone.id <$> db st) ->
  Forall (call_ok no_id any_update) calls ->
  StronglySorted Z.lt (Phone.id <$> db (run json_loads calls st)) /\
  NoDup (Phone.id <$> db (run json_loads calls st)).
Proof.
  intros Hst Hcalls.
  assert (H : StronglySorted Z.lt (Phone.id <$> db (run json_loads calls st))).
  { eapply (steps_keep json_loads no_id any_update
              (fun s => StronglySorted Z.lt (Phone.id <$> db s)));
      [apply step_ids_increasing | by apply run_steps | done]. }
  split; [done | by apply StronglySorted_lt_NoDup].
Qed.

Lemma ids_stay_increasing_witness :
  let calls := [CreatePhone iphone_12; BulkUploadPhones [pixel_5; iphone_12];
                DeletePhone 2; UpdatePhone 3 sold_out; CreatePhone pixel_5] in
  Phone.id <$> db (run sample_json_loads calls empty_store) = [1; 3; 4] /\
  NoDup (Phone.id <$> db (run sample_json_loads calls empty_store)).
Proof.
  intros calls. split; [by vm_compute|].
  apply (ids_stay_increasing sample_json_loads empty_store calls).
  - constructor.
  - by repeat constructor.
Defined.

(** ** The shape of [listed_on] *)

(** The platforms of the entry are distinct and each is X, Y or Z. *)
Definition listed_on_wellformed (phone : Phone.t) : Prop :=
  NoDup (Phone.listed_on phone) /\
  forall platform, platform ∈ Phone.listed_on phone -> platform ∈ ["X"; "Y"; "Z"].

(** Only X, Y and Z have a table of conditions. *)
Lemma mapped_platform_known internal_condition platform label :
  map_condition_to_platform internal_condition platform = Some label ->
  platform ∈ ["X"; "Y"; "Z"].
Proof.
  unfold map_condition_to_platform, CONDITION_MAPPERS.
  destruct (list_to_map _ !! platform) as [platform_map|] eqn:Hm; [|done].
  intros _. apply elem_of_list_to_map_2 in Hm.
  rewrite !elem_of_cons, elem_of_nil in Hm. rewrite !elem_of_cons.
  destruct Hm as [[= -> _]|[[= -> _]|[[= -> _]|[]]]]; tauto.
Qed.

Lemma not_rejected_platform_known phone platform :
  rejection phone platform = None -> platform ∈ ["X"; "Y"; "Z"].
Proof.
  unfold rejection. case_bool_decide; [done|].
  destruct (map_condition_to_platform _ platform) as [label|] eqn:Hl; [|done].
  intros _. by eapply mapped_platform_known.
Qed.

Lemma step_listed_on_wellformed json_loads new_ok upd_ok s s' :
  step json_loads new_ok upd_ok s s' ->
  Forall listed_on_wellformed (db s) -> Forall listed_on_wellformed (db s').
Proof.
  intros Hstep Hs.
  destruct Hstep as [st i phone Hi|st phone_data Hid|st i phone phone_update Hi _
                    |st i phone platform Hi _ Hr Hnew|st i phone Hi|st
                    |st action details];
    cbn [db with_db saved logged]; try done;
    try (pose proof (Forall_lookup_1 listed_on_wellformed _ _ _ Hs Hi) as [Hnd Hin]).
  - apply Forall_insert; [done|]. unfold listed_on_wellformed.
    by rewrite ensure_listed_on.
  - apply Forall_app. split; [done|]. apply Forall_singleton.
    split; [constructor|]. by intros platform ?%elem_of_nil.
  - apply Forall_insert; [done|]. unfold listed_on_wellformed.
    by rewrite updated_phone_listed_on.
  - apply Forall_insert; [done|]. split; cbn [Phone.listed_on Phone.set_listed_on].
    + apply NoDup_app. split; [done|]. split; [|apply NoDup_singleton].
      by intros x Hx ->%list_elem_of_singleton.
    + intros x [Hx | ->%list_elem_of_singleton]%elem_of_app; [by apply Hin|].
      by eapply not_rejected_platform_known.
  - by apply Forall_delete.
  - by apply Forall_fmap.
Qed.

(** X2: after every run of calls, from a store where it holds, the
    [listed_on] of every phone has no platform twice and holds only X, Y and
    Z, so at most three platforms. *)
Theorem listed_on_stays_wellformed
    (json_loads : string -> option (gmap string string)) (st : Store)
    (calls : list call) :
  Forall listed_on_wellformed (db st) ->
  Forall
    (fun phone =>
       NoDup (Phone.listed_on phone) /\
       (forall platform,
          platform ∈ Phone.listed_on phone -> platform ∈ ["X"; "Y"; "Z"]) /\
       (length (Phone.listed_on phone) <= 3)%nat)
    (db (run json_loads calls st)).
Proof.
  intros Hst.
  assert (H : Forall listed_on_wellformed (db (run json_loads calls st))).
  { eapply (steps_keep json_loads any_data any_update
              (fun s => Forall listed_on_wellformed (db s)));
      [apply step_listed_on_wellformed | | done].
    apply run_steps, Forall_forall. intros c _. destruct c; try done.
    by apply Forall_forall. }
  eapply Forall_impl; [exact H|]. intros phone [Hnd Hin].
  split; [done|]. split; [done|].
  assert (Hsub : Phone.listed_on phone ⊆ ["X"; "Y"; "Z"]) by exact Hin.
  by apply (submseteq_length _ ["X"; "Y"; "Z"]), NoDup_submseteq.
Qed.

Lemma listed_on_stays_wellformed_witness :
  let calls := [CreatePhone iphone_12; ListPhoneOnPlatform 1 "X";
                BulkListOnPlatform "Y" None None; ListPhoneOnPlatform 1 "W";
                BulkListOnPlatform "X" (Some "apple") None;
                ListPhoneOnPlatform 1 "Z"; ListPhoneOnPlatform 1 "Y"] in
  Phone.listed_on <$> db (run sample_json_loads calls empty_store)
  = [["X"; "Y"; "Z"]] /\
  Forall
    (fun phone =>
       NoDup (Phone.listed_on phone) /\
       (forall platform,
          platform ∈ Phone.listed_on phone -> platform ∈ ["X"; "Y"; "Z"]) /\
       (length (Phone.listed_on phone) <= 3)%nat)
    (db (run sample_json_loads calls empty_store)).
Proof.
  intros calls. split; [by vm_compute|].
  apply (listed_on_stays_wellformed sample_json_loads empty_store calls).
  constructor.
Defined.

(** ** Memory and files *)







(** A store loaded from a file written by other means, with the
    specifications of its phone still encoded. *)
Definition store_with_text : Store :=
  let phone := Phone.mk 1 "Pixel 5" "Google" "Usable" (SpecsText "{}") 3 40
                 ∅ ∅ [] [] in
  mkStore [phone] [] [phone] [].

(** On such a store a lookup decodes the specifications in memory and does
    not save: the file keeps the text. *)
Example lookup_decodes_in_memory_only :
  let st := (get_phone_by_id sample_json_loads 1 store_with_text).2 in
  Phone.specifications <$> db st = [SpecsDict ∅] /\
  Phone.specifications <$> PHONE_DATABASE_FILE st = [SpecsText "{}"].
Proof. by vm_compute. Qed.

(** ** The action log *)

(** The entries are numbered from 1 in the order they were logged, the
    newest at the head. *)
Definition log_numbered (logs : list ActionLog.t) : Prop :=
  ActionLog.id <$> logs = reverse (seqZ 1 (Z.of_nat (length logs))).

Lemma next_id_greatest (ids : list Z) (m : Z) :
  m ∈ ids -> (forall x, x ∈ ids -> x <= m) -> next_id ids = m + 1.
Proof.
  destruct ids as [|y rest]; [by intros ?%elem_of_nil|].
  intros Hm Hub. unfold next_id.
  destruct (foldl_max_spec y rest) as [Hin Hmax].
  specialize (Hub _ Hin). specialize (Hmax _ Hm). lia.
Qed.

Lemma log_entry_numbered logs action details :
  log_numbered logs -> log_numbered (log_entry logs action details :: logs).
Proof.
  unfold log_numbered. intros Hlogs. cbn [fmap list_fmap length].
  change (ActionLog.id (log_entry logs action details))
    with (next_id (ActionLog.id <$> logs)).
  rewrite seqZ_S, reverse_snoc. f_equal; [|done].
  rewrite Hlogs. destruct (length logs) as [|n] eqn:Hn; [done|].
  rewrite (next_id_greatest _ (Z.of_nat (S n))); [lia| |].
  - apply elem_of_reverse, elem_of_seqZ. lia.
  - intros x Hx%elem_of_reverse%elem_of_seqZ. lia.
Qed.

Lemma step_log_numbered json_loads new_ok upd_ok s s' :
  step json_loads new_ok upd_ok s s' ->
  log_numbered (action_log_db s) -> log_numbered (action_log_db s').
Proof.
  intros Hstep Hs. destruct Hstep; cbn [action_log_db with_db saved logged];
    try done. by apply log_entry_numbered.
Qed.

Lemma step_log_suffix json_loads new_ok upd_ok (logs : list ActionLog.t) s s' :
  step json_loads new_ok upd_ok s s' ->
  logs `suffix_of` action_log_db s -> logs `suffix_of` action_log_db s'.
Proof.
  intros Hstep Hs. destruct Hstep; cbn [action_log_db with_db saved logged];
    try done. by apply suffix_cons_r.
Qed.

(** X4: the log is append-only and numbered in order: after every run of
    calls the log before the run is a suffix of the log after it (no entry is
    changed, moved or removed), and, from a store whose log is numbered n..1
    from the head (the empty log, for instance), the log is still numbered
    n'..1 from the head, the newest entry first, with all ids distinct. *)
Theorem log_is_append_only_and_numbered
    (json_loads : string -> option (gmap string string)) (st : Store)
    (calls : list call) :
  log_numbered (action_log_db st) ->
  let logs := action_log_db (run json_loads calls st) in
  action_log_db st `suffix_of` logs /\
  ActionLog.id <$> logs = reverse (seqZ 1 (Z.of_nat (length logs))) /\
  NoDup (ActionLog.id <$> logs).
Proof.
  intros Hst logs.
  assert (Hrun : rtc (step json_loads any_data any_update) st
                   (run json_loads calls st)).
  { apply run_steps, Forall_forall. intros c _. destruct c; try done.
    by apply Forall_forall. }
  assert (Hnum : log_numbered logs).
  { by eapply (steps_keep json_loads any_data any_update
                 (fun s => log_numbered (action_log_db s)));
      [apply step_log_numbered | exact Hrun |]. }
  split; [|split; [done|]].
  - by eapply (steps_keep json_loads any_data any_update
                 (fun s => action_log_db st `suffix_of` action_log_db s));
      [apply step_log_suffix | exact Hrun |].
  - rewrite Hnum, reverse_Permutation. apply NoDup_seqZ.
Qed.

Lemma log_is_append_only_and_numbered_witness :
  let calls := [CreatePhone iphone_12; BulkUploadPhones [pixel_5; galaxy_with_id];
                ListPhoneOnPlatform 1 "X"; ListPhoneOnPlatform 1 "X";
                DeletePhone 2; DeletePhone 2; UpdatePlatformPrices] in
  let logs := action_log_db (run sample_json_loads calls empty_store) in
  ActionLog.action <$> logs
  = ["Price Update"; "Phone Deleted"; "Platform Listing"; "Bulk Upload";
     "Phone Created"; "Phone Created"; "Phone Created"] /\
  ActionLog.id <$> logs = [7; 6; 5; 4; 3; 2; 1] /\
  NoDup (ActionLog.id <$> logs).
Proof.
  intros calls logs. split; [by vm_compute|].
  destruct (log_is_append_only_and_numbered sample_json_loads empty_store calls
              eq_refl) as (_ & Hids & Hnd).
  split; [exact Hids | exact Hnd].
Defined.

(** ** Validated input never raises *)



(** The call raises instead of returning. *)
Definition raises {A} (r : result A) : bool :=
  match r with
  | Ok _ => false
  | Raise _ => true
  end.

Definition call_raises (json_loads : string -> option (gmap string string))
    (c : call) (st : Store) : bool :=
  match c with
  | CreatePhone phone_data => raises (create_phone json_loads phone_data st).1
  | UpdatePhone phone_id phone_update =>
      raises (update_phone json_loads phone_id phone_update st).1
  | DeletePhone phone_id => raises (delete_phone phone_id st).1
  | ListPhoneOnPlatform phone_id platform =>
      raises (list_phone_on_platform json_loads phone_id platform st).1
  | SearchAndFilterPhones brand condition platform skip limit =>
      raises (search_and_filter_phones json_loads brand condition platform
                skip limit st).1
  | BulkListOnPlatform platform brand condition =>
      raises (bulk_list_on_platform json_loads platform brand condition st).1
  | UpdatePlatformPrices => raises (update_platform_prices st).1
  | BulkUploadPhones phones_data =>
      raises (bulk_upload_phones json_loads phones_data st).1
  end.










(** Without the constraints a record with a negative stock is stored, its
    creation raises, and so does every later search whose page holds it. *)
Example invalid_record_raises_later :
  let broken := PhoneData.mk None "Nokia 3310" "Nokia" "Scrap" (SpecsDict ∅) (-1) 20 in
  let st := run sample_json_loads [CreatePhone broken] empty_store in
  call_raises sample_json_loads (CreatePhone broken) empty_store = true /\
  length (db st) = 1%nat /\
  call_raises sample_json_loads (SearchAndFilterPhones None None None 0 15) st = true.
Proof. by vm_compute. Qed.

(** ** Creating, then looking up *)



(** With an id that is already in the collection the lookup finds the older
    phone, not the one just stored. *)
Example supplied_id_shadowed :
  let again := PhoneData.mk (Some 1) "Galaxy S21" "Samsung" "Good" (SpecsDict ∅) 2 300 in
  let st := run sample_json_loads [CreatePhone iphone_12; CreatePhone again]
              empty_store in
  Phone.id <$> db st = [1; 1] /\
  match (get_phone_by_id sample_json_loads 1 st).1 with
  | Ok (Some found) => Phone.model_name found = "iPhone 12"
  | _ => False
  end.
Proof. by vm_compute. Qed.

(** ** Deleting *)




(** ** Updating *)



(** ** A rejected listing *)

(** X9: when [list_phone_on_platform] returns an error (unknown id, out of
    stock, unsupported condition, fee too high) it has written nothing: the
    log and both files are as before, and so are the ids and the [listed_on]
    of all phones; with decoded specifications the store is unchanged. *)
Theorem rejected_listing_writes_nothing
    (json_loads : string -> option (gmap string string)) (st : Store)
    (phone_id : Z) (platform : string) (msg : string) :
  (list_phone_on_platform json_loads phone_id platform st).1 = Ok (error msg) ->
  let st' := (list_phone_on_platform json_loads phone_id platform st).2 in
  action_log_db st' = action_log_db st /\
  PHONE_DATABASE_FILE st' = PHONE_DATABASE_FILE st /\
  LOG_DATABASE_FILE st' = LOG_DATABASE_FILE st /\
  Phone.id <$> db st' = Phone.id <$> db st /\
  Phone.listed_on <$> db st' = Phone.listed_on <$> db st /\
  (Forall specifications_decoded (db st) -> st' = st).
Proof.
  destruct (find_by_id phone_id (db st)) as [[i phone]|] eqn:Hf.
  - pose proof Hf as (Hi & Hid & _)%find_by_id_Some.
    destruct (Phone_valid phone) eqn:Hv;
      [|by rewrite (list_phone_on_platform_invalid _ _ _ _ _ _ Hf Hv)].
    rewrite (list_phone_on_platform_found _ _ _ _ _ _ Hf Hv). cbn zeta.
    destruct (rejection _ platform); [|done]. cbn [fst snd]. intros _.
    cbn [with_db db action_log_db PHONE_DATABASE_FILE LOG_DATABASE_FILE].
    split; [done|]. split; [done|]. split; [done|].
    split; [apply (fmap_insert_same Phone.id _ _ _ _ Hi), ensure_id|].
    split; [apply (fmap_insert_same Phone.listed_on _ _ _ _ Hi), ensure_listed_on|].
    intros Hdec.
    rewrite (ensure_decoded _ _ (Forall_lookup_1 _ _ _ _ Hdec Hi)).
    rewrite (list_insert_id _ _ _ Hi). apply with_db_same.
  - rewrite (list_phone_on_platform_not_found _ _ _ _ Hf). by intros _.
Qed.

Lemma rejected_listing_writes_nothing_witness :
  let st := run sample_json_loads [CreatePhone iphone_12; CreatePhone pixel_5]
              empty_store in
  (list_phone_on_platform sample_json_loads 2 "X" st).1
  = Ok (error "Condition 'Usable' not supported on X") /\
  (list_phone_on_platform sample_json_loads 2 "X" st).2 = st.
Proof.
  intros st. split; [by vm_compute|].
  apply (rejected_listing_writes_nothing sample_json_loads st 2 "X"
           "Condition 'Usable' not supported on X" eq_refl).
  repeat constructor; by eexists.
Defined.

(** ** Bulk upload *)






(** ** Pages for any integers *)





(** A negative [limit] does not give an empty page: with [skip = 0] and
    [limit = -1] the page holds every match but the last. *)
Example negative_limit_page :
  let st := run sample_json_loads (creations [iphone_12; pixel_5; iphone_12])
              empty_store in
  match (search_and_filter_phones sample_json_loads None None None 0 (-1) st).1 with
  | Ok page => Phone.id <$> PhonePage.items page = [1; 2]
  | Raise _ => False
  end.
Proof. by vm_compute. Qed.

(** ** The table of conditions *)

(** X13: a condition has a label on X exactly when it is Excellent, Good or
    Scrap, and on Y and on Z exactly when it is Excellent, Good or Usable;
    it has none on any other platform code, and the match is on the exact
    spelling. *)
Theorem condition_support (internal_condition platform : string) :
  is_Some (map_condition_to_platform internal_condition platform) <->
  (platform = "X" /\ internal_condition ∈ ["Excellent"; "Good"; "Scrap"]) \/
  ((platform = "Y" \/ platform = "Z") /\
   internal_condition ∈ ["Excellent"; "Good"; "Usable"]).
Proof.
  split.
  - intros [label Hl]. revert Hl.
    unfold map_condition_to_platform, CONDITION_MAPPERS.
    destruct (list_to_map _ !! platform) as [platform_map|] eqn:Hm; [|done].
    apply elem_of_list_to_map_2 in Hm. case_decide; [done|]. intros Hl.
    rewrite !elem_of_cons, elem_of_nil in Hm. rewrite !elem_of_cons.
    destruct Hm as [[= -> ->]|[[= -> ->]|[[= -> ->]|[]]]];
      repeat (apply lookup_insert_Some in Hl as [[<- _]|[_ Hl]]; [tauto|]);
      by rewrite lookup_empty in Hl.
  - rewrite !elem_of_cons, !elem_of_nil.
    intros [[-> [->|[->|[->|[]]]]]|[[->| ->] [->|[->|[->|[]]]]]]; by eexists.
Qed.

(** The match is case-sensitive, and W has no table. *)
Example condition_support_examples :
  map_condition_to_platform "good" "X" = None /\
  map_condition_to_platform "Good" "x" = None /\
  map_condition_to_platform "Good" "W" = None /\
  map_condition_to_platform "Scrap" "Y" = None /\
  map_condition_to_platform "Usable" "Z" = Some "Good".
Proof. by vm_compute. Qed.

(** ** Bulk listing *)

Section bulk_listing.

Variable json_loads : string -> option (gmap string string).

#[local] Abbreviation ensure := (_ensure_specifications_is_dict json_loads).















Lemma set_listed_on_again l l' (phone : Phone.t) :
  Phone.set_listed_on l (Phone.set_listed_on l' phone) = Phone.set_listed_on l phone.
Proof. by destruct phone. Qed.







End bulk_listing.



(** Two phones of the same id break the count: the second is counted as a
    success although it is the first that gets listed. *)
Example bulk_listing_with_a_repeated_id :
  let again := PhoneData.mk (Some 1) "Galaxy S21" "Samsung" "Good" (SpecsDict ∅) 2 300 in
  let st := run sample_json_loads [CreatePhone iphone_12; CreatePhone again]
              empty_store in
  let after := bulk_list_on_platform sample_json_loads "Y" None None st in
  after.1 = Ok (mk_bulk_counts 2 0) /\
  Phone.listed_on <$> db after.2 = [["Y"]; []].
Proof. by vm_compute. Qed.

(** * Further properties: the dashboard *)

(** ** services.py: [get_dashboard_analytics] and [get_action_logs] *)

(** A JSON number: the literal [0] of the empty summary is an [int], a sum of
    products of prices is a [float]. *)
Inductive number :=
| Int (n : Z)
| Float (x : float).

(** The dictionary [get_dashboard_analytics] returns. *)
Module Analytics.
Record t := mk {
  total_phones : Z;
  total_stock_units : Z;
  total_inventory_value : number;
  stock_by_brand : gmap string Z;
  stock_by_condition : gmap string Z }.
End Analytics.

(** [l.count(x)]. *)
Definition count (x : string) (l : list string) : Z :=
  Z.of_nat (length (filter (fun y => y = x) l)).

(** The dictionary comprehension [{x: l.count(x) for x in set(l)}]. *)
Definition counts (l : list string) : gmap string Z :=
  set_to_map (fun x => (x, count x l)) (list_to_set l : gset string).

Section analytics.

(** [sum(p["base_price"] * p["stock_quantity"] for p in results)] on the
    pairs of a base price and a stock: the float arithmetic of the
    interpreter (the conversion of the stock to a float, the products, and
    the summation of the built-in [sum], which is compensated in recent
    versions of Python and plain in older ones). *)
Variable inventory_value : list (float * Z) -> float.

Definition get_dashboard_analytics (brand condition platform : option string)
    : M Analytics.t :=
  d ← get_db;
  let results := d in
  let results :=
    filter_by brand
      (fun v p => bool_decide (lower (Phone.brand p) = lower v)) results in
  let results :=
    filter_by condition
      (fun v p => bool_decide (lower (Phone.condition p) = lower v)) results in
  let results :=
    filter_by platform (fun v p => bool_decide (v ∈ Phone.listed_on p)) results in
  match results with
  | [] => mret (Analytics.mk 0 0 (Int 0) ∅ ∅)
  | _ =>
      let brands := Phone.brand <$> results in
      let stock_by_brand := counts brands in
      let conditions := Phone.condition <$> results in
      let stock_by_condition := counts conditions in
      let total_inventory_value :=
        inventory_value
          ((fun p => (Phone.base_price p, Phone.stock_quantity p)) <$> results) in
      mret (Analytics.mk (Z.of_nat (length results))
              (foldl Z.add 0 (Phone.stock_quantity <$> results))
              (Float total_inventory_value) stock_by_brand stock_by_condition)
  end.

End analytics.

Definition get_action_logs : M (list ActionLog.t) :=
  logs ← get_action_log_db;
  mret logs.

(** ** What the summary counts *)





Lemma count_cons x y l :
  count x (y :: l) = (if decide (y = x) then 1 else 0) + count x l.
Proof.
  unfold count. rewrite filter_cons. destruct (decide (y = x)); cbn [length]; lia.
Qed.

Lemma count_pos x l : x ∈ l -> 0 < count x l.
Proof.
  induction l as [|y l IH]; [by intros ?%elem_of_nil|].
  rewrite count_cons. intros [->|Hin]%elem_of_cons.
  - rewrite decide_True by done. unfold count. lia.
  - specialize (IH Hin). destruct (decide (y = x)); lia.
Qed.










(** The filter on the brand is case-insensitive, the breakdown is not: the
    search for "apple" counts "Apple" and "APPLE" apart. *)
Example analytics_brands_by_spelling :
  let shouting := PhoneData.mk None "iPhone 11" "APPLE" "Good" (SpecsDict ∅) 5 300 in
  let st := run sample_json_loads (creations [iphone_12; pixel_5; shouting; iphone_12])
              empty_store in
  match (get_dashboard_analytics (fun _ => 0%float) (Some "apple") None None st).1 with
  | Ok summary =>
      Analytics.total_phones summary = 3 /\
      Analytics.total_stock_units summary = 25 /\
      map_to_list (Analytics.stock_by_brand summary) = [("Apple", 2); ("APPLE", 1)]
  | Raise _ => False
  end.
Proof. by vm_compute. Qed.

(** * Further properties: the token *)

(** ** security.py and the token route of main.py *)

Module HTTPException.
Record t := mk {
  status_code : Z;
  detail : string;
  headers : option (gmap string string) }.
End HTTPException.

Definition fake_users_db : gmap string (gmap string string) :=
  {[ "admin" := {[ "username" := "admin" ]} ]}.

(** The user of a bearer token, or the exception raised. *)
Definition get_current_user (token : string)
    : HTTPException.t + gmap string string :=
  if decide (token <> "mock_token") then
    inl (HTTPException.mk 401 "Invalid authentication credentials"
           (Some {[ "WWW-Authenticate" := "Bearer" ]}))
  else
    match fake_users_db !! "admin" with
    | None =>
        inl (HTTPException.mk 401 "Could not validate credentials"
               (Some {[ "WWW-Authenticate" := "Bearer" ]}))
    | Some user => inr user
    end.

(** The route [POST /token]; a query parameter left out takes its default,
    ["admin"] for the user name and ["password"] for the password. *)
Definition login_for_access_token (username password : option string)
    : HTTPException.t + gmap string string :=
  let username := default "admin" username in
  let password := default "password" password in
  if bool_decide (username = "admin") && bool_decide (password = "password") then
    inr {[ "access_token" := "mock_token"; "token_type" := "bearer" ]}
  else inl (HTTPException.mk 401 "Invalid credentials" None).

(** X16: [get_current_user] returns the admin user for the token
    "mock_token" and raises 401 "Invalid authentication credentials" for
    every other token; its second error, "Could not validate credentials", is
    never raised.  The token route issues a token exactly for admin/password
    (the defaults of parameters left out included), refuses with 401
    otherwise, and the token it issues is the one [get_current_user]
    accepts. *)
Theorem token_is_checked_and_issued_consistently
    (token : string) (username password : option string) :
  (get_current_user token = inr {[ "username" := "admin" ]}
   <-> token = "mock_token") /\
  (forall e, get_current_user token = inl e ->
     token <> "mock_token" /\
     HTTPException.status_code e = 401 /\
     HTTPException.detail e = "Invalid authentication credentials") /\
  (forall issued, login_for_access_token username password = inr issued <->
     default "admin" username = "admin" /\
     default "password" password = "password" /\
     issued = {[ "access_token" := "mock_token"; "token_type" := "bearer" ]}) /\
  (forall issued, login_for_access_token username password = inr issued ->
     exists t, issued !! "access_token" = Some t /\
               get_current_user t = inr {[ "username" := "admin" ]}) /\
  (forall e, login_for_access_token username password = inl e ->
     HTTPException.status_code e = 401) /\
  login_for_access_token None None =
    inr {[ "access_token" := "mock_token"; "token_type" := "bearer" ]}.
Proof.
  assert (Huser : fake_users_db !! "admin" = Some {[ "username" := "admin" ]})
    by done.
  split; [|split; [|split; [|split; [|split]]]].
  - unfold get_current_user. rewrite Huser.
    destruct (decide (token <> "mock_token")) as [Hne|Heq%dec_stable]; split;
      try done; by intros ->.
  - intros e. unfold get_current_user. rewrite Huser.
    destruct (decide (token <> "mock_token")); [|done]. by intros [= <-].
  - intros issued. unfold login_for_access_token. cbn zeta.
    do 2 case_bool_decide; cbn [andb]; split; try done;
      try (by intros [= <-]); try (by intros (_ & _ & ->));
      by intros (? & ? & _).
  - intros issued. unfold login_for_access_token. cbn zeta.
    do 2 case_bool_decide; cbn [andb]; try done.
    intros [= <-]. by exists "mock_token".
  - intros e. unfold login_for_access_token. cbn zeta.
    do 2 case_bool_decide; cbn [andb]; try done; by intros [= <-].
  - done.
Qed.
